(** * JStack analyzer: parsing and aggregation core

    A shallow embedding of [scripts/jstack_analyzer.py] (class
    [JStackAnalyzer]) and the properties of its block splitter, header and
    body parser, classifier, aggregator and deduplicator.

    Python [str] values are lists of characters.  A character is a code
    point below 256 ([ascii]); the whitespace and digit classes below are
    Python's [str.isspace] and the [\d] of [re] restricted to that range. *)

From Stdlib Require Import List Ascii String Arith Bool Lia QArith.
From stdpp Require Import base gmap list strings.
From Stdlib Require Import Sorted Permutation.
Import ListNotations.

Close Scope Q_scope.
Open Scope nat_scope.
Open Scope list_scope.

Abbreviation str := (list ascii).

(** Literals are written as Rocq strings. *)
Definition py (s : string) : str := list_ascii_of_string s.

(* ===================================================================== *)
(** ** Python string primitives *)
(* ===================================================================== *)

Module PyStr.

Definition nl : ascii := ascii_of_nat 10.
Definition dquote : ascii := ascii_of_nat 34.

Definition ch_eqb (a b : ascii) : bool := Ascii.eqb a b.

(** [str.isspace] on one character: TAB..CR, FS..US, SPACE, NEL, NBSP. *)
Definition is_space (c : ascii) : bool :=
  let n := nat_of_ascii c in
  ((9 <=? n) && (n <=? 13)) || ((28 <=? n) && (n <=? 31))
  || (n =? 32) || (n =? 133) || (n =? 160).

(** [\d]: the decimal digits. *)
Definition is_digit (c : ascii) : bool :=
  let n := nat_of_ascii c in (48 <=? n) && (n <=? 57).

(** [[0-9a-f]] *)
Definition is_hex (c : ascii) : bool :=
  let n := nat_of_ascii c in
  ((48 <=? n) && (n <=? 57)) || ((97 <=? n) && (n <=? 102)).

(** Truthiness of a string: non-empty. *)
Definition truthy (s : str) : bool :=
  match s with [] => false | _ :: _ => true end.

Fixpoint lstrip (s : str) : str :=
  match s with
  | [] => []
  | c :: s' => if is_space c then lstrip s' else s
  end.

Fixpoint rstrip (s : str) : str :=
  match s with
  | [] => []
  | c :: s' =>
      let r := rstrip s' in
      if is_space c && negb (truthy r) then [] else c :: r
  end.

(** [s.strip()] *)
Definition strip (s : str) : str := rstrip (lstrip s).

(** [s.split(sep)] for a one-character separator: never the empty list. *)
Fixpoint split_on (sep : ascii) (s : str) : list str :=
  match s with
  | [] => [[]]
  | c :: s' =>
      if ch_eqb c sep then [] :: split_on sep s'
      else match split_on sep s' with
           | l :: ls => (c :: l) :: ls
           | [] => [[c]]
           end
  end.

(** [s.startswith(p)] *)
Fixpoint startswith (p s : str) : bool :=
  match p, s with
  | [], _ => true
  | _ :: _, [] => false
  | a :: p', b :: s' => ch_eqb a b && startswith p' s'
  end.

(** [p in s] *)
Fixpoint contains (p s : str) : bool :=
  startswith p s ||
  match s with
  | [] => false
  | _ :: s' => contains p s'
  end.

(** [s.replace(p, '')]: the occurrences of [p], found left to right
    without overlap, are removed (removing the empty string changes
    nothing).  [skip] counts the characters of the occurrence being
    removed that are still ahead. *)
Fixpoint replace_del_from (p : str) (skip : nat) (s : str) : str :=
  match s with
  | [] => []
  | c :: s' =>
      match skip with
      | S k => replace_del_from p k s'
      | 0 =>
          if startswith p s
          then match length p with
               | S k => replace_del_from p k s'
               | 0 => c :: replace_del_from p 0 s'
               end
          else c :: replace_del_from p 0 s'
      end
  end.

Definition replace_del (p s : str) : str := replace_del_from p 0 s.

(** [c.lower()] on the code points below 256: A-Z and the accented
    capitals 0xC0-0xDE (the multiplication sign 0xD7 apart). *)
Definition lower_ch (c : ascii) : ascii :=
  let n := nat_of_ascii c in
  if ((65 <=? n) && (n <=? 90))
     || ((192 <=? n) && (n <=? 222) && negb (n =? 215))
  then ascii_of_nat (n + 32) else c.

Definition lower (s : str) : str := map lower_ch s.

End PyStr.
Import PyStr.

(* ===================================================================== *)
(** ** The fragment of [re] the analyzer uses

    A backtracking matcher with the priorities of Python's engine: the
    successes of a pattern from one position are listed in the order the
    engine tries them, so the head of the list is the match [re] reports. *)
(* ===================================================================== *)

Module Re.

Inductive regex : Type :=
| Bos                                 (* ^ *)
| Eos                                 (* $ *)
| Lit (s : str)                       (* literal text *)
| Seq (r1 r2 : regex)                 (* r1 r2 *)
| Opt (r : regex)                     (* r?  , greedy *)
| Plus (p : ascii -> bool)            (* c+  , greedy, c a character class *)
| PlusLazy (p : ascii -> bool)        (* c+? , lazy *)
| Group (n : nat) (r : regex).        (* the n-th capturing group *)

Declare Scope re_scope.
Delimit Scope re_scope with re.
Bind Scope re_scope with regex.
Infix "+>" := Seq (at level 60, right associativity) : re_scope.

(** Matcher state: characters consumed so far, what is left of the
    subject, and the text of the groups closed so far. *)
Record mstate : Type := MState {
  m_pos : nat;
  m_rest : str;
  m_caps : gmap nat str
}.

(** [c+] and [c+?]: one character of the class, then either more of them
    or a stop, tried in the order the quantifier prescribes. *)
Fixpoint plus_from (lazy : bool) (p : ascii -> bool)
         (pos : nat) (s : str) (caps : gmap nat str) : list mstate :=
  match s with
  | [] => []
  | c :: s' =>
      if p c then
        let here := MState (S pos) s' caps in
        let more := plus_from lazy p (S pos) s' caps in
        if lazy then here :: more else more ++ [here]
      else []
  end.

Fixpoint run (r : regex) (st : mstate) : list mstate :=
  match r with
  | Bos => if m_pos st =? 0 then [st] else []
  | Eos =>
      (* end of the subject, or just before a newline that ends it *)
      match m_rest st with
      | [] => [st]
      | [c] => if ch_eqb c nl then [st] else []
      | _ => []
      end
  | Lit s =>
      if startswith s (m_rest st)
      then [MState (m_pos st + length s) (skipn (length s) (m_rest st))
                   (m_caps st)]
      else []
  | Seq r1 r2 => flat_map (run r2) (run r1 st)
  | Opt r1 => run r1 st ++ [st]
  | Plus p => plus_from false p (m_pos st) (m_rest st) (m_caps st)
  | PlusLazy p => plus_from true p (m_pos st) (m_rest st) (m_caps st)
  | Group n r1 =>
      map (fun st' =>
             MState (m_pos st') (m_rest st')
                    (<[n := firstn (m_pos st' - m_pos st) (m_rest st)]>
                       (m_caps st')))
          (run r1 st)
  end.

(** [re.match(r, s)]: the groups of the first success from position 0,
    [None] when there is none.  [m !! n] is [match.group(n)]. *)
Definition re_match (r : regex) (s : str) : option (gmap nat str) :=
  m_caps <$> head (run r (MState 0 s ∅)).

(** [re.sub(r, '', s)]: scanning left to right, the text of every match
    is removed and the scan resumes where the match ended; where nothing
    (or only the empty string) matches, the character is kept. *)
Fixpoint sub_del_from (r : regex) (pos skip : nat) (s : str) : str :=
  match s with
  | [] => []
  | c :: s' =>
      match skip with
      | S k => sub_del_from r (S pos) k s'
      | 0 =>
          match head (run r (MState pos s ∅)) with
          | Some st' =>
              match m_pos st' - pos with
              | 0 => c :: sub_del_from r (S pos) 0 s'
              | S k => sub_del_from r (S pos) k s'
              end
          | None => c :: sub_del_from r (S pos) 0 s'
          end
      end
  end.

Definition re_sub_del (r : regex) (s : str) : str := sub_del_from r 0 0 s.

End Re.
Import Re.

(* ===================================================================== *)
(** ** The analyzer *)
(* ===================================================================== *)

Module JStack.

Open Scope re_scope.

(** [class ThreadInfo] *)
Record ThreadInfo : Type := mkThreadInfo {
  name : str;
  thread_id : str;
  daemon : bool;
  priority : str;
  os_prio : str;
  tid : str;
  nid : str;
  state : str;
  stack_trace : list str
}.

Definition not_dquote (c : ascii) : bool := negb (ch_eqb c dquote).
(** [.] : any character but a newline *)
Definition dot (c : ascii) : bool := negb (ch_eqb c nl).

(** *** [_split_thread_blocks] *)

(** [pattern], with DQ for the double quote: [^DQ([^DQ]+)DQ].  At the start
    of the line, a double quote, one or more characters that are not a
    double quote (group 1), a double quote. *)
Definition block_pattern : regex :=
  Bos +> Lit [dquote] +> Group 1 (Plus not_dquote) +> Lit [dquote].

Definition is_block_start (line : str) : bool :=
  match re_match block_pattern line with Some _ => true | None => false end.

(** One turn of the loop over [content.split('\n')]; the state is
    [(blocks, current_block)]. *)
Definition split_step (st : list str * str) (line : str) : list str * str :=
  let '(blocks, current_block) := st in
  if is_block_start line && truthy current_block
  then (blocks ++ [strip current_block], line)
  else (blocks,
        if truthy current_block then current_block ++ nl :: line else line).

Definition _split_thread_blocks (content : str) : list str :=
  let '(blocks, current_block) :=
    fold_left split_step (split_on nl content) ([], []) in
  if truthy (strip current_block)
  then blocks ++ [strip current_block]
  else blocks.

(** *** [_parse_thread_block] *)

(** [header_pattern], with DQ for the double quote:
    [^DQ([^DQ]+)DQ\s+#(\d+)\s+(daemon\s+)?prio=(\d+)\s+os_prio=(\d+)]
    [\s+tid=0x([0-9a-f]+)\s+nid=(0x[0-9a-f]+)\s+(.+?)]
    [(?:\s+\[0x([0-9a-f]+)\])?$]
    Groups: 1 name, 2 thread id, 3 the daemon keyword, 4 prio, 5 os_prio,
    6 tid, 7 nid, 8 status, 9 bracketed address. *)
Definition header_pattern : regex :=
  Bos +> Lit [dquote] +> Group 1 (Plus not_dquote) +> Lit [dquote]
  +> Plus is_space +> Lit (py "#") +> Group 2 (Plus is_digit)
  +> Plus is_space +> Opt (Group 3 (Lit (py "daemon") +> Plus is_space))
  +> Lit (py "prio=") +> Group 4 (Plus is_digit)
  +> Plus is_space +> Lit (py "os_prio=") +> Group 5 (Plus is_digit)
  +> Plus is_space +> Lit (py "tid=0x") +> Group 6 (Plus is_hex)
  +> Plus is_space +> Lit (py "nid=")
  +> Group 7 (Lit (py "0x") +> Plus is_hex)
  +> Plus is_space +> Group 8 (PlusLazy dot)
  +> Opt (Plus is_space +> Lit (py "[0x") +> Group 9 (Plus is_hex)
          +> Lit (py "]"))
  +> Eos.

Definition state_prefix : str := py "java.lang.Thread.State:".

(** [match.groups()[n-1]] for a group that took part in the match, as
    groups 1, 2 and 4 to 8 of [header_pattern] always do. *)
Definition group (m : gmap nat str) (n : nat) : str := default [] (m !! n).

(** One turn of the loop over [lines[1:]]; the state is
    [(state, stack_trace)]. *)
Definition body_step (st : str * list str) (line : str) : str * list str :=
  let '(state, stack_trace) := st in
  let line := strip line in
  if startswith state_prefix line
  then (strip (replace_del state_prefix line), stack_trace)
  else if startswith (py "at ") line || startswith (py "- ") line
  then (state, stack_trace ++ [line])
  else (state, stack_trace).

Definition parse_body (body : list str) : str * list str :=
  fold_left body_step body (py "UNKNOWN", []).

(** [None] is Python's [None]: the block is not a thread. *)
Definition _parse_thread_block (block : str) : option ThreadInfo :=
  match split_on nl block with
  | [] => None
  | header_line :: body =>
      match re_match header_pattern (strip header_line) with
      | None => None
      | Some m =>
          let '(state, stack_trace) := parse_body body in
          Some {| name := group m 1;
                  thread_id := group m 2;
                  daemon := bool_decide (is_Some (m !! 3));
                  priority := group m 4;
                  os_prio := group m 5;
                  tid := group m 6;
                  nid := group m 7;
                  state := state;
                  stack_trace := stack_trace |}
      end
  end.

(** *** [parse_jstack_output]: the loop that fills [self.threads] *)

Definition collect_step (threads : list ThreadInfo) (block : str)
  : list ThreadInfo :=
  match _parse_thread_block block with
  | Some thread => threads ++ [thread]
  | None => threads
  end.

Definition parse_blocks (thread_blocks : list str) : list ThreadInfo :=
  fold_left collect_step thread_blocks [].

Definition parse_jstack_output (content : str) : list ThreadInfo :=
  parse_blocks (_split_thread_blocks content).

(** *** [_get_thread_group] *)

(** The [patterns] dict, in its insertion order. *)
Definition patterns : list (str * str) :=
  [ (py "nioEventLoopGroup", py "Netty NIO");
    (py "grpc", py "gRPC");
    (py "OkHttp", py "OkHttp");
    (py "pool-", py "Thread Pool");
    (py "Keep-Alive", py "HTTP Keep-Alive");
    (py "Attach Listener", py "JVM Attach");
    (py "Finalizer", py "JVM Finalizer");
    (py "Reference Handler", py "JVM Reference");
    (py "Signal Dispatcher", py "JVM Signal");
    (py "C2 CompilerThread", py "JIT Compiler");
    (py "VM Thread", py "JVM VM");
    (py "Safepoint", py "JVM Safepoint") ].

(** The [for pattern, group in patterns.items()] loop with its return. *)
Fixpoint scan_patterns (table : list (str * str)) (thread_name : str) : str :=
  match table with
  | [] => py "Other"
  | (pattern, grp) :: table' =>
      if contains pattern thread_name then grp
      else scan_patterns table' thread_name
  end.

Definition _get_thread_group (thread_name : str) : str :=
  scan_patterns patterns thread_name.

(** *** [_get_state_class] *)

Definition _get_state_class (state : str) : str :=
  let state_lower := lower state in
  if contains (py "runnable") state_lower then py "state-runnable"
  else if contains (py "waiting") state_lower
          && negb (contains (py "timed") state_lower)
  then py "state-waiting"
  else if contains (py "timed_waiting") state_lower
          || contains (py "timed waiting") state_lower
  then py "state-timed_waiting"
  else if contains (py "blocked") state_lower then py "state-blocked"
  else py "state-other".

(** *** [analyze_threads] *)

(** A [Counter] (and a [defaultdict(list)]) keeps its keys in insertion
    order, which the report's rankings depend on: association lists. *)
Fixpoint counter_incr (key : str) (c : list (str * nat)) : list (str * nat) :=
  match c with
  | [] => [(key, 1)]
  | (k, n) :: c' =>
      if bool_decide (k = key) then (k, S n) :: c'
      else (k, n) :: counter_incr key c'
  end.

(** [c[key]]: 0 for a key that is not there. *)
Fixpoint counter_get (key : str) (c : list (str * nat)) : nat :=
  match c with
  | [] => 0
  | (k, n) :: c' => if bool_decide (k = key) then n else counter_get key c'
  end.

Fixpoint group_append (key : str) (t : ThreadInfo)
         (g : list (str * list ThreadInfo)) : list (str * list ThreadInfo) :=
  match g with
  | [] => [(key, [t])]
  | (k, ts) :: g' =>
      if bool_decide (k = key) then (k, ts ++ [t]) :: g'
      else (k, ts) :: group_append key t g'
  end.

(** The [stats] dict. *)
Record Stats : Type := mkStats {
  total_threads : nat;
  daemon_threads : nat;
  non_daemon_threads : nat;
  states : list (str * nat);
  thread_groups : list (str * list ThreadInfo);
  blocked_threads : list ThreadInfo;
  waiting_threads : list ThreadInfo;
  runnable_threads : list ThreadInfo;
  stack_traces : list (str * nat)
}.

Definition init_stats (threads : list ThreadInfo) : Stats :=
  {| total_threads := length threads;
     daemon_threads := length (List.filter daemon threads);
     non_daemon_threads :=
       length (List.filter (fun t => negb (daemon t)) threads);
     states := fold_left (fun c t => counter_incr (state t) c) threads [];
     thread_groups := [];
     blocked_threads := [];
     waiting_threads := [];
     runnable_threads := [];
     stack_traces := [] |}.

(** One turn of [for thread in self.threads]. *)
Definition analyze_step (stats : Stats) (thread : ThreadInfo) : Stats :=
  let grp := _get_thread_group (name thread) in
  let '(blocked, waiting, runnable) :=
    let lists :=
      (blocked_threads stats, waiting_threads stats, runnable_threads stats) in
    let '(b, w, r) := lists in
    if contains (py "BLOCKED") (state thread)
    then (b ++ [thread], w, r)
    else if contains (py "WAITING") (state thread)
            || contains (py "TIMED_WAITING") (state thread)
    then (b, w ++ [thread], r)
    else if contains (py "RUNNABLE") (state thread)
    then (b, w, r ++ [thread])
    else lists in
  {| total_threads := total_threads stats;
     daemon_threads := daemon_threads stats;
     non_daemon_threads := non_daemon_threads stats;
     states := states stats;
     thread_groups := group_append grp thread (thread_groups stats);
     blocked_threads := blocked;
     waiting_threads := waiting;
     runnable_threads := runnable;
     stack_traces :=
       match stack_trace thread with
       | [] => stack_traces stats                 (* if thread.stack_trace: *)
       | _ :: _ =>
           let key :=
             match stack_trace thread with
             | frame :: _ => frame
             | [] => py "empty"
             end in
           counter_incr key (stack_traces stats)
       end |}.

Definition analyze_threads (threads : list ThreadInfo) : Stats :=
  fold_left analyze_step threads (init_stats threads).

(** *** [_deduplicate_threads_by_name_pattern] *)

(** [-\d+$] and [\d+$]: a hyphen and digits at the end; digits at the
    end. *)
Definition hyphen_digits_pattern : regex :=
  Lit (py "-") +> Plus is_digit +> Eos.
Definition digits_pattern : regex := Plus is_digit +> Eos.

Definition base_name_of (thread_name : str) : str :=
  let base_name := re_sub_del hyphen_digits_pattern thread_name in
  let base_name := re_sub_del digits_pattern base_name in
  strip base_name.

(** One turn of the loop; the state is [(seen_groups, deduplicated_threads)]. *)
Definition dedup_step (st : gset str * list ThreadInfo) (thread : ThreadInfo)
  : gset str * list ThreadInfo :=
  let '(seen_groups, deduplicated_threads) := st in
  let group_key := base_name_of (name thread) in
  if bool_decide (group_key ∈ seen_groups) then st
  else ({[group_key]} ∪ seen_groups, deduplicated_threads ++ [thread]).

Definition _deduplicate_threads_by_name_pattern (threads : list ThreadInfo)
  : list ThreadInfo :=
  snd (fold_left dedup_step threads (∅, [])).

(** *** The percentages of [generate_html_report] *)

(** [a / b] on numbers: [None] is [ZeroDivisionError].  The quotient is
    kept exact; the rounding of Python's floats is not modelled. *)
Definition py_truediv (a b : nat) : option Q :=
  match b with
  | 0 => None
  | S _ => Some (Qmake (Z.of_nat a) (Pos.of_nat b))
  end.

(** [(count / total) * 100 if total > 0 else 0] *)
Definition percentage (count total : nat) : option Q :=
  if 0 <? total
  then q ← py_truediv count total; Some (q * 100)%Q
  else Some 0%Q.

(** Stable sort by decreasing second component:
    [sorted(items, key=..., reverse=True)]. *)
Fixpoint insert_desc {A} (key : A -> nat) (x : A) (l : list A) : list A :=
  match l with
  | [] => [x]
  | y :: l' =>
      if key y <=? key x then x :: l else y :: insert_desc key x l'
  end.

Definition sort_desc {A} (key : A -> nat) (l : list A) : list A :=
  fold_right (insert_desc key) [] l.

(** [Counter.most_common()] and [Counter.most_common(n)]. *)
Definition most_common (c : list (str * nat)) : list (str * nat) :=
  sort_desc snd c.
Definition most_common_n (n : nat) (c : list (str * nat)) : list (str * nat) :=
  firstn n (most_common c).

(** The percentage of every row of the three tables of the report, in
    the order the report computes them: states, thread groups, stack
    trace patterns. *)
Definition report_percentages (stats : Stats) : list (option Q) :=
  let total := total_threads stats in
  map (fun '(_, count) => percentage count total) (most_common (states stats))
  ++ map (fun '(_, threads) => percentage (length threads) total)
         (sort_desc (fun x => length (snd x)) (thread_groups stats))
  ++ map (fun '(_, count) => percentage count total)
         (most_common_n 10 (stack_traces stats)).

End JStack.

(* ===================================================================== *)
(** ** Notions the properties are stated with *)
(* ===================================================================== *)

Module Spec.
Import JStack.

(** [block.split('\n')[0]] *)
Definition first_line (block : str) : str := hd [] (split_on nl block).

(** A block begins with a header-marker line. *)
Definition begins_with_marker (block : str) : Prop :=
  is_block_start (first_line block) = true.

(** The shape of a text whose first line is a marker: a double quote, a
    non-empty name free of double quotes and newlines, a double quote. *)
Definition marker_shape (s : str) : Prop :=
  exists nm t, s = dquote :: nm ++ dquote :: t /\ nm <> []
               /\ forallb not_dquote nm = true /\ ~ In nl nm.

(** The trimmed lines of a block after its header line, and those of them
    that declare the thread state. *)
Definition body_lines (block : str) : list str :=
  map strip (tl (split_on nl block)).

Definition is_state_line (line : str) : bool := startswith state_prefix line.

Definition state_lines (block : str) : list str :=
  List.filter is_state_line (body_lines block).

(** The state as the specification words it: the trimmed text after the
    prefix of the first state line, [UNKNOWN] without one. *)
Definition state_of_first_line (block : str) : str :=
  match state_lines block with
  | [] => py "UNKNOWN"
  | line :: _ => strip (skipn (length state_prefix) line)
  end.

(** [p] occurs somewhere in [s]. *)
Definition occurs (p s : str) : Prop := exists a b, s = a ++ p ++ b.

(** Two states that differ in letter case only. *)
Definition same_up_to_case (s1 s2 : str) : Prop := lower s1 = lower s2.

(** The membership tests of the three per-state lists. *)
Definition is_blocked (t : ThreadInfo) : bool :=
  contains (py "BLOCKED") (state t).
Definition is_waiting (t : ThreadInfo) : bool :=
  negb (is_blocked t) && contains (py "WAITING") (state t).
Definition is_runnable (t : ThreadInfo) : bool :=
  negb (is_blocked t) && negb (contains (py "WAITING") (state t))
  && contains (py "RUNNABLE") (state t).

(** The deduplicator as a recursion on the list, given the keys seen. *)
Fixpoint keep_first (seen : gset str) (threads : list ThreadInfo)
  : list ThreadInfo :=
  match threads with
  | [] => []
  | t :: threads' =>
      if bool_decide (base_name_of (name t) ∈ seen)
      then keep_first seen threads'
      else t :: keep_first ({[base_name_of (name t)]} ∪ seen) threads'
  end.

(** The first frame of every record that has frames, in record order. *)
Definition first_frames (threads : list ThreadInfo) : list str :=
  flat_map (fun t => match stack_trace t with
                     | frame :: _ => [frame]
                     | [] => []
                     end) threads.

(** The record has frames and its first frame is [key]. *)
Definition first_frame_is (key : str) (t : ThreadInfo) : bool :=
  match stack_trace t with
  | frame :: _ => bool_decide (frame = key)
  | [] => false
  end.

End Spec.

(* ===================================================================== *)
(** ** Sample inputs *)
(* ===================================================================== *)

Module Samples.
Import JStack.

(** Scenario A of the specification: one thread. *)
Definition thread_1_header : str :=
  dquote :: py "Thread-1" ++ dquote
    :: py " #10 prio=5 os_prio=0 tid=0x01 nid=0x02 runnable".

Definition thread_1_block : str :=
  thread_1_header ++ nl :: py "   java.lang.Thread.State: RUNNABLE"
    ++ nl :: ascii_of_nat 9 :: py "at com.example.Foo.bar(Foo.java:10)".

(** A dump as the JVM prints it: a timestamp line, the banner, an empty
    line, then the threads. *)
Definition banner_text : str :=
  py "2024-01-01 12:00:00" ++ nl :: py "Full thread dump OpenJDK".

Definition banner_dump : str := banner_text ++ nl :: nl :: thread_1_block.

(** The same thread with two state lines, and with a state line that
    carries no state. *)
Definition two_state_block : str :=
  thread_1_header ++ nl :: py "   java.lang.Thread.State: RUNNABLE"
    ++ nl :: py "   java.lang.Thread.State: BLOCKED (on object monitor)".

Definition empty_state_block : str :=
  thread_1_header ++ nl :: py "   java.lang.Thread.State:".

(** A header without its [nid=] field. *)
Definition no_nid_block : str :=
  dquote :: py "Thread-2" ++ dquote
    :: py " #11 prio=5 os_prio=0 tid=0x03 runnable"
    ++ nl :: py "   java.lang.Thread.State: RUNNABLE".

Definition thread_3_block : str :=
  dquote :: py "pool-1-thread-3" ++ dquote
    :: py " #12 daemon prio=5 os_prio=0 tid=0x05 nid=0x06 waiting on condition"
    ++ nl :: py "   java.lang.Thread.State: WAITING (parking)".

(** Records for the aggregator and the deduplicator. *)
Definition thread_with (nm st : string) (frames : list str) : ThreadInfo :=
  {| name := py nm; thread_id := py "1"; daemon := false;
     priority := py "5"; os_prio := py "0"; tid := py "01"; nid := py "0x02";
     state := py st; stack_trace := frames |}.

Definition upper_runnable : ThreadInfo := thread_with "main" "RUNNABLE" [].
Definition lower_runnable : ThreadInfo := thread_with "worker" "runnable" [].
Definition sleeper : ThreadInfo :=
  thread_with "timer" "TIMED_WAITING (sleeping)" [py "at java.lang.Thread.sleep(Native Method)"].
Definition idle_thread : ThreadInfo := thread_with "idle" "RUNNABLE" [].

Definition pool_thread_1 : ThreadInfo := thread_with "pool-1-thread-1" "WAITING" [].
Definition pool_thread_2 : ThreadInfo := thread_with "pool-1-thread-2" "RUNNABLE" [].

End Samples.

(* ===================================================================== *)
(** ** The rest of the analyzer: banner, report tables, themes *)
(* ===================================================================== *)

Module PyDict.

(** A dict with string keys, in insertion order; [None] is [KeyError]. *)
Fixpoint dict_get {V} (key : str) (d : list (str * V)) : option V :=
  match d with
  | [] => None
  | (k, v) :: d' => if bool_decide (k = key) then Some v else dict_get key d'
  end.

(** [key in d] *)
Definition dict_has {V} (key : str) (d : list (str * V)) : bool :=
  match dict_get key d with Some _ => true | None => false end.

End PyDict.

Module Snapshot.
Import JStack.

(** [re.match(r'\d{4}-\d{2}-\d{2}', line)]: four digits, a hyphen, two
    digits, a hyphen, two digits, at the start of the line. *)
Definition is_date_start (line : str) : bool :=
  match line with
  | y1 :: y2 :: y3 :: y4 :: h1 :: m1 :: m2 :: h2 :: d1 :: d2 :: _ =>
      is_digit y1 && is_digit y2 && is_digit y3 && is_digit y4
      && ch_eqb h1 (ascii_of_nat 45)
      && is_digit m1 && is_digit m2
      && ch_eqb h2 (ascii_of_nat 45)
      && is_digit d1 && is_digit d2
  | _ => false
  end.

Definition banner_text : str := py "Full thread dump".

(** One turn of [for line in lines[:10]]; the state is
    [(self.jvm_info, self.timestamp)], both [None] at first. *)
Definition banner_step (st : option str * option str) (line : str)
  : option str * option str :=
  let '(jvm_info, timestamp) := st in
  if contains banner_text line then (Some (strip line), timestamp)
  else if is_date_start line then (jvm_info, Some (strip line))
  else (jvm_info, timestamp).

Definition extract_banner (content : str) : option str * option str :=
  fold_left banner_step (firstn 10 (split_on nl content)) (None, None).

End Snapshot.

Module Report.
Import JStack.

(** [thread.name[:50]] followed by the dots when the name is longer. *)
Definition display_name (thread_name : str) : str :=
  firstn 50 thread_name ++ (if 50 <? length thread_name then py "..." else []).

(** [pattern[:100] + '...' if len(pattern) > 100 else pattern] *)
Definition pattern_display (pattern : str) : str :=
  if 100 <? length pattern then firstn 100 pattern ++ py "..." else pattern.

(** [max(items, key=...)]: the first item of greatest key; [None] is the
    [ValueError] of an empty sequence. *)
Definition py_max_by {A} (key : A -> nat) (l : list A) : option A :=
  match l with
  | [] => None
  | x :: l' => Some (fold_left (fun m y => if key m <? key y then y else m) l' x)
  end.

(** The largest thread group of the summary:
    [max(stats['thread_groups'].items(), key=...)[0]] when there are
    groups, [N/A] otherwise. *)
Definition largest_group (stats : Stats) : option str :=
  match thread_groups stats with
  | [] => Some (py "N/A")
  | _ :: _ => fst <$> py_max_by (fun x => length (snd x)) (thread_groups stats)
  end.

(** The rows of the thread-group table:
    [sorted(stats['thread_groups'].items(), key=..., reverse=True)]. *)
Definition group_rows (stats : Stats) : list (str * list ThreadInfo) :=
  sort_desc (fun x => length (snd x)) (thread_groups stats).

(** [a < b] on strings: code point order, a proper prefix first. *)
Fixpoint str_ltb (a b : str) : bool :=
  match a, b with
  | _, [] => false
  | [], _ :: _ => true
  | x :: a', y :: b' =>
      if nat_of_ascii x <? nat_of_ascii y then true
      else if nat_of_ascii y <? nat_of_ascii x then false
      else str_ltb a' b'
  end.

(** Stable sort by increasing key: [sorted(items, key=...)]. *)
Fixpoint insert_asc {A} (key : A -> str) (x : A) (l : list A) : list A :=
  match l with
  | [] => [x]
  | y :: l' =>
      if str_ltb (key y) (key x) then y :: insert_asc key x l' else x :: l
  end.

Definition sort_asc {A} (key : A -> str) (l : list A) : list A :=
  fold_right (insert_asc key) [] l.

(** The rows of the detailed thread table:
    [sorted(deduplicated_threads, key=lambda t: t.name)]. *)
Definition detail_rows (threads : list ThreadInfo) : list ThreadInfo :=
  sort_asc name (_deduplicate_threads_by_name_pattern threads).

End Report.

Module Styling.
Import PyDict.

(** [FrontendDesignStyling.get_color_schemes()] *)
Definition get_color_schemes : list (str * list (str * str)) :=
  [ (py "minimal",
     [ (py "primary", py "#2563eb");
       (py "secondary", py "#64748b");
       (py "accent", py "#3b82f6");
       (py "success", py "#10b981");
       (py "warning", py "#f59e0b");
       (py "danger", py "#ef4444");
       (py "dark", py "#1e293b");
       (py "light", py "#f8fafc");
       (py "neutral", py "#64748b");
       (py "gradient_primary", py "linear-gradient(135deg, #2563eb, #3b82f6)");
       (py "gradient_secondary", py "linear-gradient(135deg, #64748b, #94a3b8)");
       (py "description",
        py "Minimal - Clean, professional design with subtle gradients") ]);
    (py "modern",
     [ (py "primary", py "#059669");
       (py "secondary", py "#374151");
       (py "accent", py "#10b981");
       (py "success", py "#059669");
       (py "warning", py "#d97706");
       (py "danger", py "#dc2626");
       (py "dark", py "#111827");
       (py "light", py "#f9fafb");
       (py "neutral", py "#6b7280");
       (py "gradient_primary", py "linear-gradient(135deg, #059669, #10b981)");
       (py "gradient_secondary", py "linear-gradient(135deg, #374151, #4b5563)");
       (py "description",
        py "Modern - Contemporary design with green accents") ]);
    (py "classic",
     [ (py "primary", py "#1f2937");
       (py "secondary", py "#4b5563");
       (py "accent", py "#6366f1");
       (py "success", py "#10b981");
       (py "warning", py "#f59e0b");
       (py "danger", py "#ef4444");
       (py "dark", py "#111827");
       (py "light", py "#ffffff");
       (py "neutral", py "#6b7280");
       (py "gradient_primary", py "linear-gradient(135deg, #1f2937, #374151)");
       (py "gradient_secondary", py "linear-gradient(135deg, #6366f1, #8b5cf6)");
       (py "description",
        py "Classic - Traditional monochrome design with subtle purple accents") ]) ].

(** [FrontendDesignStyling.get_theme_info()] *)
Definition get_theme_info : list (str * list (str * str)) := get_color_schemes.

(** The theme lookup that opens [generate_html_report]:
    [selected_theme = theme if theme in theme_info else "industrial"], then
    [theme_info[selected_theme]["description"]]. *)
Definition theme_description (theme : str) : option str :=
  let theme_info := get_theme_info in
  let selected_theme :=
    if dict_has theme theme_info then theme else py "industrial" in
  scheme ← dict_get selected_theme theme_info;
  dict_get (py "description") scheme.

(** The colour lookups of [generate_base_css(theme)], in the order of the
    style sheet: [colors = get_color_schemes()[theme]], then
    [colors['primary']] and the ten keys after it. *)
Definition css_color_keys : list str :=
  [ py "primary"; py "secondary"; py "accent"; py "success"; py "warning";
    py "danger"; py "dark"; py "light"; py "neutral";
    py "gradient_primary"; py "gradient_secondary" ].

Definition base_css_colors (theme : str) : option (list str) :=
  colors ← dict_get theme get_color_schemes;
  mapM (fun key => dict_get key colors) css_color_keys.

(** The [choices] of the [--theme] option of [main]. *)
Definition cli_themes : list str := [py "minimal"; py "modern"; py "classic"].

End Styling.

Module Notions.
Import JStack Spec.

(** A trimmed body line that is a stack frame. *)
Definition is_frame_line (line : str) : bool :=
  startswith (py "at ") line || startswith (py "- ") line.

(** ['\n'.join(lines)] *)
Fixpoint join_nl (lines : list str) : str :=
  match lines with
  | [] => []
  | [line] => line
  | line :: lines' => line ++ nl :: join_nl lines'
  end.

(** The sum of the counts of a counter. *)
Definition counter_total (c : list (str * nat)) : nat :=
  fold_right (fun kv acc => snd kv + acc) 0 c.

(** The record has the state [s]; is of the family [g]; has frames; has
    the base name [k]. *)
Definition has_state (s : str) (t : ThreadInfo) : bool :=
  bool_decide (state t = s).
Definition in_family (g : str) (t : ThreadInfo) : bool :=
  bool_decide (_get_thread_group (name t) = g).
Definition has_frames (t : ThreadInfo) : bool :=
  match stack_trace t with [] => false | _ :: _ => true end.
Definition has_base_name (k : str) (t : ThreadInfo) : bool :=
  bool_decide (base_name_of (name t) = k).

(** The number of lines of a text, after the first, that start a block. *)
Definition later_block_starts (content : str) : nat :=
  length (List.filter is_block_start (tl (split_on nl content))).

(** [a <= b] on the keys of a descending table. *)
Definition count_ge {A} (key : A -> nat) (x y : A) : Prop := key y <= key x.

(** [a <= b] on strings. *)
Definition str_le (a b : str) : Prop := Report.str_ltb b a = false.

(** The texts [ps] occur in [s] one after the other, in this order and
    without overlap. *)
Fixpoint occurs_in_order (ps : list str) (s : str) : Prop :=
  match ps with
  | [] => True
  | p :: ps' => exists a t, s = a ++ p ++ t /\ occurs_in_order ps' t
  end.

(** What is left of [s] after the first occurrence of [p]. *)
Fixpoint after_first (p s : str) : option str :=
  if startswith p s then Some (skipn (length p) s)
  else match s with
       | [] => None
       | _ :: s' => after_first p s'
       end.

(** [occurs_in_order] decided, taking each text at its first occurrence. *)
Fixpoint in_order_b (ps : list str) (s : str) : bool :=
  match ps with
  | [] => true
  | p :: ps' =>
      match after_first p s with
      | Some t => in_order_b ps' t
      | None => false
      end
  end.

(** The keyed fields of a header line, in the order of [header_pattern]. *)
Definition keyed_fields : list str :=
  [py "prio="; py "os_prio="; py "tid=0x"; py "nid=0x"].

End Notions.

Module MoreSamples.
Import PyStr.

(** A header without its [prio=] field; [os_prio=] is there. *)
Definition no_prio_block : str :=
  dquote :: py "Thread-4" ++ dquote
    :: py " #13 os_prio=0 tid=0x07 nid=0x08 runnable".

(** The lines of [Samples.banner_dump] before its first header line, that
    header line, and the lines after it. *)
Definition banner_lines : list str :=
  [py "2024-01-01 12:00:00"; py "Full thread dump OpenJDK"; []].

Definition thread_1_body : list str :=
  [py "   java.lang.Thread.State: RUNNABLE";
   ascii_of_nat 9 :: py "at com.example.Foo.bar(Foo.java:10)"].

End MoreSamples.

(* ===================================================================== *)
(** ** Facts about the string primitives *)
(* ===================================================================== *)

Section StringFacts.

Lemma ch_eqb_true (a b : ascii) : ch_eqb a b = true <-> a = b.
Proof. unfold ch_eqb. apply Ascii.eqb_eq. Qed.

Lemma ch_eqb_false (a b : ascii) : ch_eqb a b = false <-> a <> b.
Proof. unfold ch_eqb. apply Ascii.eqb_neq. Qed.

Lemma ch_eqb_refl (a : ascii) : ch_eqb a a = true.
Proof. now apply ch_eqb_true. Qed.

Lemma truthy_true (s : str) : truthy s = true <-> s <> [].
Proof. destruct s; simpl; split; congruence. Qed.

Lemma startswith_spec (p s : str) :
  startswith p s = true <-> exists t, s = p ++ t.
Proof.
  revert s. induction p as [|a p IH]; intros s; simpl.
  - split; eauto.
  - destruct s as [|b s].
    + split; [discriminate | intros [t Ht]; discriminate].
    + rewrite andb_true_iff, ch_eqb_true, IH. split.
      * intros [-> [t ->]]. now exists t.
      * intros [t Ht]. injection Ht as -> ->. eauto.
Qed.

Lemma startswith_app (p t : str) : startswith p (p ++ t) = true.
Proof. apply startswith_spec. now exists t. Qed.

(** [p in s] holds exactly when [s] is some text, [p], some text. *)
Lemma contains_spec (p s : str) :
  contains p s = true <-> exists a b, s = a ++ p ++ b.
Proof.
  induction s as [|c s IH].
  - simpl. rewrite orb_false_r, startswith_spec. split.
    + intros [t Ht]. now exists [], t.
    + intros [a [b Hab]]. destruct a; [now exists b | discriminate].
  - simpl. rewrite orb_true_iff, startswith_spec, IH. split.
    + intros [[t Ht] | [a [b Hab]]].
      * now exists [], t.
      * exists (c :: a), b. now rewrite Hab.
    + intros [a [b Hab]]. destruct a as [|c' a].
      * left. now exists b.
      * right. injection Hab as _ ->. now exists a, b.
Qed.

Lemma rstrip_cons_nonspace (c : ascii) (s : str) :
  is_space c = false -> rstrip (c :: s) = c :: rstrip s.
Proof. intros H. simpl. now rewrite H. Qed.

(** Trailing whitespace is cut after the last non-space character. *)
Lemma rstrip_keeps_prefix (x : str) (c : ascii) (t : str) :
  is_space c = false -> rstrip (x ++ c :: t) = x ++ c :: rstrip t.
Proof.
  intros Hc. induction x as [|a x IH].
  - now apply rstrip_cons_nonspace.
  - change ((a :: x) ++ c :: t) with (a :: (x ++ c :: t)).
    simpl rstrip. rewrite IH.
    assert (truthy (x ++ c :: rstrip t) = true) as ->
      by (apply truthy_true; now destruct x).
    now rewrite andb_false_r.
Qed.

Lemma split_on_not_nil (sep : ascii) (s : str) : split_on sep s <> [].
Proof.
  induction s as [|c s IH]; simpl; [discriminate|].
  destruct (ch_eqb c sep); [discriminate|].
  now destruct (split_on sep s).
Qed.

(** No piece of [s.split(sep)] holds the separator. *)
Lemma split_on_pieces (sep : ascii) (s : str) :
  Forall (fun piece => ~ In sep piece) (split_on sep s).
Proof.
  induction s as [|c s IH]; simpl.
  - constructor; [tauto | constructor].
  - destruct (ch_eqb c sep) eqn:E.
    + constructor; [tauto | exact IH].
    + apply ch_eqb_false in E.
      destruct (split_on sep s) as [|l ls]; inversion IH; subst.
      * constructor; [| constructor]. simpl. intros [H|[]]; congruence.
      * constructor; [| assumption]. simpl. intros [H|H]; [congruence | tauto].
Qed.

(** The first piece of a split: a separator-free prefix stays in it. *)
Lemma split_on_head_app (sep : ascii) (a b : str) :
  ~ In sep a ->
  hd [] (split_on sep (a ++ b)) = a ++ hd [] (split_on sep b).
Proof.
  induction a as [|c a IH]; intros Hin; [reflexivity|].
  simpl. destruct (ch_eqb c sep) eqn:E.
  - apply ch_eqb_true in E. subst. exfalso. apply Hin. now left.
  - assert (Ha : ~ In sep a) by (intros H; apply Hin; now right).
    specialize (IH Ha).
    pose proof (split_on_not_nil sep (a ++ b)) as Hne.
    destruct (split_on sep (a ++ b)) as [|l ls]; [congruence|].
    simpl in *. now rewrite IH.
Qed.

(** [rstrip] is [lstrip] read from the other end. *)
Lemma rstrip_snoc (s : str) (c : ascii) :
  rstrip (s ++ [c]) = if is_space c then rstrip s else s ++ [c].
Proof.
  induction s as [|a s IH].
  - simpl. now destruct (is_space c).
  - cbn [app rstrip]. rewrite IH. destruct (is_space c); [reflexivity|].
    assert (truthy (s ++ [c]) = true) as -> by (now destruct s).
    now rewrite andb_false_r.
Qed.

Lemma rstrip_rev (s : str) : rstrip s = rev (lstrip (rev s)).
Proof.
  induction s as [|c s IH] using rev_ind; [reflexivity|].
  rewrite rstrip_snoc, rev_app_distr. cbn [rev app lstrip].
  destruct (is_space c); [exact IH|].
  cbn [rev]. now rewrite rev_involutive.
Qed.

Lemma occurs_here (p t : str) : Spec.occurs p (p ++ t).
Proof. now exists [], t. Qed.

Lemma occurs_here2 (p1 p2 t : str) : Spec.occurs (p1 ++ p2) (p1 ++ p2 ++ t).
Proof. exists [], t. now rewrite <- app_assoc. Qed.

Lemma occurs_app_r (p a t : str) : Spec.occurs p t -> Spec.occurs p (a ++ t).
Proof. intros (x & y & ->). exists (a ++ x), y. now rewrite <- app_assoc. Qed.

End StringFacts.

(* ===================================================================== *)
(** ** Facts about the matcher *)
(* ===================================================================== *)

Section MatcherFacts.

Lemma head_is_Some {A} (l : list A) : is_Some (head l) <-> exists x, In x l.
Proof.
  destruct l as [|x l]; simpl; split.
  - intros [? ?]; discriminate.
  - intros [? []].
  - eauto.
  - intros _. now exists x.
Qed.

Lemma head_In {A} (l : list A) (x : A) : head l = Some x -> In x l.
Proof. destruct l; simpl; [discriminate | intros [= ->]; now left]. Qed.

(** The successes of [c+] / [c+?]: every split of the subject after a
    non-empty run of characters of the class. *)
Lemma plus_from_in lazy p pos s caps st' :
  In st' (plus_from lazy p pos s caps) <->
  exists a b, s = a ++ b /\ a <> [] /\ forallb p a = true
              /\ st' = MState (pos + length a) b caps.
Proof.
  revert pos. induction s as [|c s IH]; intros pos; simpl.
  - split; [tauto|]. intros (a & b & Hs & Ha & _).
    destruct a; [congruence | discriminate].
  - destruct (p c) eqn:Hc.
    + assert (In st' (MState (S pos) s caps
                        :: plus_from lazy p (S pos) s caps) <->
              In st' (if lazy
                      then MState (S pos) s caps
                             :: plus_from lazy p (S pos) s caps
                      else plus_from lazy p (S pos) s caps
                             ++ [MState (S pos) s caps])) as <-.
      { destruct lazy; [reflexivity|].
        rewrite in_app_iff. simpl. tauto. }
      simpl. rewrite IH. split.
      * intros [<- | (a & b & -> & Ha & Hp & ->)].
        -- exists [c], s. simpl. rewrite Hc.
           repeat split; try congruence. f_equal. lia.
        -- exists (c :: a), b. simpl. rewrite Hc, Hp.
           repeat split; try congruence. f_equal. lia.
      * intros (a & b & Hs & Ha & Hp & ->).
        destruct a as [|c' a]; [congruence|].
        injection Hs as <- ->. simpl in Hp.
        apply andb_true_iff in Hp as [_ Hp].
        destruct a as [|c'' a].
        -- left. simpl. f_equal. lia.
        -- right. exists (c'' :: a), b.
           repeat split; try congruence. f_equal. simpl. lia.
    + simpl. split; [tauto|]. intros (a & b & Hs & Ha & Hp & _).
      destruct a as [|c' a]; [congruence|].
      injection Hs as <- _. simpl in Hp. rewrite Hc in Hp. discriminate.
Qed.

Lemma run_Seq_in r1 r2 st st' :
  In st' (run (Seq r1 r2) st) <->
  exists mid, In mid (run r1 st) /\ In st' (run r2 mid).
Proof. simpl. apply in_flat_map. Qed.

Lemma run_Lit_in s st st' :
  In st' (run (Lit s) st) <->
  exists t, m_rest st = s ++ t
            /\ st' = MState (m_pos st + length s) t (m_caps st).
Proof.
  simpl. destruct (startswith s (m_rest st)) eqn:E.
  - apply startswith_spec in E as [t Ht]. rewrite Ht.
    rewrite skipn_app, skipn_all, Nat.sub_diag. simpl. split.
    + intros [<- | []]. now exists t.
    + intros (t' & Ht' & ->). apply app_inv_head in Ht'. subst. now left.
  - split; [intros []|]. intros (t & Ht & _).
    rewrite Ht, startswith_app in E. discriminate.
Qed.

Lemma run_Plus_in p st st' :
  In st' (run (Plus p) st) <->
  exists a b, m_rest st = a ++ b /\ a <> [] /\ forallb p a = true
              /\ st' = MState (m_pos st + length a) b (m_caps st).
Proof. simpl. apply plus_from_in. Qed.

Lemma run_PlusLazy_in p st st' :
  In st' (run (PlusLazy p) st) <->
  exists a b, m_rest st = a ++ b /\ a <> [] /\ forallb p a = true
              /\ st' = MState (m_pos st + length a) b (m_caps st).
Proof. simpl. apply plus_from_in. Qed.

Lemma run_Opt_in r st st' :
  In st' (run (Opt r) st) <-> In st' (run r st) \/ st' = st.
Proof. simpl. rewrite in_app_iff. simpl. intuition congruence. Qed.

(** What a pattern consumes is a prefix of what was left. *)
Lemma run_consumes r : forall st st',
  In st' (run r st) ->
  exists a, m_rest st = a ++ m_rest st' /\ m_pos st' = m_pos st + length a.
Proof.
  induction r as [| |s|r1 IH1 r2 IH2|r IH|p|p|n r IH]; intros st st' Hin.
  - simpl in Hin. destruct (m_pos st =? 0); [|contradiction].
    destruct Hin as [<-|[]]. exists []. simpl. split; [reflexivity | lia].
  - simpl in Hin. assert (st' = st) as ->.
    { destruct (m_rest st) as [|c [|c' t]]; try contradiction;
        [|destruct (ch_eqb c nl); [|contradiction]];
        now destruct Hin as [<-|[]]. }
    exists []. simpl. split; [reflexivity | lia].
  - apply run_Lit_in in Hin as (t & Ht & ->). now exists s.
  - apply run_Seq_in in Hin as (mid & H1 & H2).
    apply IH1 in H1 as (a & Ha & Hpa). apply IH2 in H2 as (b & Hb & Hpb).
    exists (a ++ b). rewrite Ha, Hb, <- app_assoc, length_app.
    split; [reflexivity | lia].
  - apply run_Opt_in in Hin as [Hin | ->]; [now apply IH|].
    exists []. simpl. split; [reflexivity | lia].
  - apply run_Plus_in in Hin as (a & b & Ha & _ & _ & ->). now exists a.
  - apply run_PlusLazy_in in Hin as (a & b & Ha & _ & _ & ->). now exists a.
  - simpl in Hin. apply in_map_iff in Hin as (st1 & <- & H1).
    apply IH in H1. exact H1.
Qed.

(** A group records exactly the text its body consumed. *)
Lemma run_Group_in n r st st' :
  In st' (run (Group n r) st) <->
  exists st1 a, In st1 (run r st) /\ m_rest st = a ++ m_rest st1
                /\ st' = MState (m_pos st1) (m_rest st1)
                                (<[n := a]> (m_caps st1)).
Proof.
  simpl. rewrite in_map_iff. split.
  - intros (st1 & <- & H1). exists st1.
    destruct (run_consumes _ _ _ H1) as (a & Ha & Hp).
    exists a. repeat split; try assumption.
    rewrite Hp, Ha.
    replace (m_pos st + length a - m_pos st) with (length a) by lia.
    now rewrite firstn_app, Nat.sub_diag, firstn_all, app_nil_r.
  - intros (st1 & a & H1 & Ha & ->). exists st1. split; [|assumption].
    destruct (run_consumes _ _ _ H1) as (a' & Ha' & Hp).
    assert (a' = a) as ->.
    { rewrite Ha in Ha'. now apply app_inv_tail in Ha'. }
    rewrite Hp, Ha.
    replace (m_pos st + length a - m_pos st) with (length a) by lia.
    now rewrite firstn_app, Nat.sub_diag, firstn_all, app_nil_r.
Qed.

Lemma re_match_Some r s m :
  re_match r s = Some m ->
  exists st', In st' (run r (MState 0 s ∅)) /\ m = m_caps st'.
Proof.
  unfold re_match. destruct (head _) as [st'|] eqn:E; [|discriminate].
  intros [= <-]. exists st'. split; [now apply head_In | reflexivity].
Qed.

Lemma re_match_is_Some r s :
  is_Some (re_match r s) <-> exists st', In st' (run r (MState 0 s ∅)).
Proof.
  unfold re_match. rewrite <- head_is_Some.
  destruct (head _); simpl; split; intros [? ?]; eauto; discriminate.
Qed.


Lemma run_Bos_in st st' :
  In st' (run Bos st) <-> m_pos st = 0 /\ st' = st.
Proof.
  simpl. destruct (m_pos st =? 0) eqn:E.
  - apply Nat.eqb_eq in E. simpl. intuition congruence.
  - apply Nat.eqb_neq in E. simpl. intuition.
Qed.

Lemma run_Eos_in st st' :
  In st' (run Eos st) <->
  st' = st /\ (m_rest st = [] \/ m_rest st = [nl]).
Proof.
  simpl. destruct (m_rest st) as [|c [|c' t]]; simpl.
  - intuition congruence.
  - destruct (ch_eqb c nl) eqn:E; simpl.
    + apply ch_eqb_true in E. subst. intuition congruence.
    + apply ch_eqb_false in E. intuition congruence.
  - intuition congruence.
Qed.

End MatcherFacts.

(** Inversion of a success of a pattern, one constructor at a time. *)
Ltac run_inv1 :=
  lazymatch goal with
  | H : In _ (run (Seq _ _) _) |- _ =>
      let mid := fresh "mid" in let H1 := fresh "H1" in
      apply run_Seq_in in H as (mid & H1 & H)
  | H : In _ (run Bos _) |- _ => apply run_Bos_in in H as [_ ->]
  | H : In _ (run Eos _) |- _ => apply run_Eos_in in H as [-> _]
  | H : In _ (run (Lit _) _) |- _ =>
      let t := fresh "t" in let E := fresh "E" in
      apply run_Lit_in in H as (t & E & ->)
  | H : In _ (run (Plus _) _) |- _ =>
      let a := fresh "a" in let b := fresh "b" in
      let E := fresh "E" in let N := fresh "N" in let P := fresh "P" in
      apply run_Plus_in in H as (a & b & E & N & P & ->)
  | H : In _ (run (PlusLazy _) _) |- _ =>
      let a := fresh "a" in let b := fresh "b" in
      let E := fresh "E" in let N := fresh "N" in let P := fresh "P" in
      apply run_PlusLazy_in in H as (a & b & E & N & P & ->)
  | H : In _ (run (Group _ _) _) |- _ =>
      let st1 := fresh "st" in let g := fresh "g" in let E := fresh "G" in
      apply run_Group_in in H as (st1 & g & H & E & ->)
  | H : In _ (run (Opt _) _) |- _ => apply run_Opt_in in H as [H | ->]
  end; cbn [m_pos m_rest m_caps] in *.

Ltac run_inv := repeat run_inv1.

(** The text of a group whose body is a single [c+]. *)
Ltac group_text :=
  repeat match goal with
  | H1 : ?t = ?g ++ ?b, H2 : ?t = ?a ++ ?b |- _ =>
      is_var g;
      let E := fresh in
      assert (g = a) as E by (rewrite H1 in H2; now apply app_inv_tail in H2);
      subst g; clear H1
  end.

(* ===================================================================== *)
(** ** The block splitter *)
(* ===================================================================== *)

Module Splitter.
Import JStack Spec Samples.

Lemma is_block_start_spec (line : str) :
  is_block_start line = true <->
  exists nm t, line = dquote :: nm ++ dquote :: t /\ nm <> []
               /\ forallb not_dquote nm = true.
Proof.
  unfold is_block_start.
  assert (is_Some (re_match block_pattern line) <->
          (match re_match block_pattern line with
           | Some _ => true | None => false end) = true) as <-.
  { destruct (re_match _ _); split; try discriminate; eauto.
    intros [? ?]; discriminate. }
  rewrite re_match_is_Some. unfold block_pattern. split.
  - intros (st' & H).
    apply run_Seq_in in H as (s1 & H1 & H).
    apply run_Bos_in in H1 as [_ ->].
    apply run_Seq_in in H as (s2 & H2 & H).
    apply run_Lit_in in H2 as (t2 & Hl & ->).
    apply run_Seq_in in H as (s3 & H3 & H).
    apply run_Group_in in H3 as (s3' & nm & H3 & Hn & ->).
    apply run_Plus_in in H3 as (a & b & Hab & Ha & Hp & ->).
    apply run_Lit_in in H as (t4 & Hq & _).
    cbn [m_rest m_pos m_caps app] in *.
    subst b. rewrite Hab in Hn. apply app_inv_tail in Hn. subst nm.
    exists a, t4. subst. auto.
  - intros (nm & t & -> & Hne & Hp).
    eexists. apply run_Seq_in. eexists. split; [now apply run_Bos_in|].
    apply run_Seq_in. eexists. split.
    { apply run_Lit_in. simpl. eexists. split; reflexivity. }
    apply run_Seq_in. eexists. split.
    { apply run_Group_in. eexists _, nm. split; [|split; [|reflexivity]].
      - apply run_Plus_in. exists nm, (dquote :: t). simpl. eauto.
      - reflexivity. }
    apply run_Lit_in. simpl. eexists. split; reflexivity.
Qed.

Lemma marker_shape_line (line : str) :
  is_block_start line = true -> ~ In nl line -> marker_shape line.
Proof.
  intros H Hnl. apply is_block_start_spec in H as (nm & t & -> & Hne & Hp).
  exists nm, t. repeat split; try assumption.
  intros Hin. apply Hnl. right. apply in_or_app. now left.
Qed.

Lemma marker_shape_app (cur more : str) :
  marker_shape cur -> marker_shape (cur ++ more).
Proof.
  intros (nm & t & -> & H). exists nm, (t ++ more). split; [|exact H].
  simpl. now rewrite <- app_assoc.
Qed.

Lemma marker_shape_truthy (cur : str) : marker_shape cur -> truthy cur = true.
Proof. now intros (nm & t & -> & _). Qed.

Lemma dquote_not_space : is_space dquote = false.
Proof. reflexivity. Qed.

Lemma dquote_not_nl : dquote <> nl.
Proof. discriminate. Qed.

(** Trimming a text of that shape only shortens what follows the name. *)
Lemma strip_marker_shape (nm t : str) :
  strip (dquote :: nm ++ dquote :: t) = dquote :: nm ++ dquote :: rstrip t.
Proof.
  unfold strip.
  assert (lstrip (dquote :: nm ++ dquote :: t) = dquote :: nm ++ dquote :: t)
    as -> by reflexivity.
  rewrite rstrip_cons_nonspace by apply dquote_not_space.
  now rewrite rstrip_keeps_prefix by apply dquote_not_space.
Qed.

Lemma marker_shape_begins (cur : str) :
  marker_shape cur ->
  begins_with_marker (strip cur) /\ truthy (strip cur) = true.
Proof.
  intros (nm & t & -> & Hne & Hp & Hnl). rewrite strip_marker_shape.
  split; [|reflexivity].
  unfold begins_with_marker, first_line.
  replace (dquote :: nm ++ dquote :: rstrip t)
    with ((dquote :: nm ++ [dquote]) ++ rstrip t)
    by (simpl; now rewrite <- app_assoc).
  rewrite split_on_head_app.
  - apply is_block_start_spec.
    exists nm, (hd [] (split_on nl (rstrip t))). split; [|auto].
    simpl. now rewrite <- app_assoc.
  - simpl. intros [H | H]; [now apply dquote_not_nl|].
    apply in_app_or in H as [H | [H | []]]; [tauto|].
    now apply dquote_not_nl.
Qed.

(** Once the block in progress begins with a marker, every block closed
    from then on does, and so does the one in progress. *)
Lemma split_loop_after_marker (lines : list str) :
  Forall (fun l => ~ In nl l) lines ->
  forall blocks cur blocks' cur',
    marker_shape cur ->
    fold_left split_step lines (blocks, cur) = (blocks', cur') ->
    exists closed, blocks' = blocks ++ closed
                   /\ Forall begins_with_marker closed
                   /\ marker_shape cur'.
Proof.
  induction 1 as [|line lines Hline _ IH]; intros blocks cur blocks' cur' Hcur.
  - simpl. intros [= <- <-]. exists []. rewrite app_nil_r. auto.
  - simpl. rewrite (marker_shape_truthy _ Hcur), andb_true_r.
    destruct (is_block_start line) eqn:Hstart; intros Hfold.
    + apply IH in Hfold as (closed & -> & Hall & Hcur');
        [|now apply marker_shape_line].
      exists (strip cur :: closed). rewrite <- app_assoc.
      repeat split; try assumption.
      constructor; [|assumption]. now apply marker_shape_begins.
    + apply IH in Hfold; [assumption|]. now apply marker_shape_app.
Qed.

(** From the start: whatever precedes the first marker ends up in the
    first block; the blocks after it begin with a marker. *)
Lemma split_loop_from_start (lines : list str) :
  Forall (fun l => ~ In nl l) lines ->
  forall cur blocks' cur',
    fold_left split_step lines ([], cur) = (blocks', cur') ->
    Forall begins_with_marker (tl blocks')
    /\ (blocks' <> [] -> marker_shape cur').
Proof.
  induction 1 as [|line lines Hline Hlines IH]; intros cur blocks' cur'.
  - simpl. intros [= <- <-]. split; [constructor | congruence].
  - simpl. destruct (is_block_start line && truthy cur) eqn:Hflush.
    + apply andb_true_iff in Hflush as [Hstart _]. intros Hfold.
      apply (split_loop_after_marker _ Hlines) in Hfold
          as (closed & -> & Hall & Hcur');
        [|now apply marker_shape_line].
      simpl. auto.
    + apply IH.
Qed.

End Splitter.


(* ===================================================================== *)
(** ** The header and body parser *)
(* ===================================================================== *)

Module Parser.
Import JStack Spec Samples.

(** What a header that matches [header_pattern] gives its groups: every
    group but the daemon keyword and the bracketed address took part. *)
Lemma header_groups (s : str) (m : gmap nat str) :
  re_match header_pattern s = Some m ->
  exists nm id pr op ti ni status,
    m !! 1 = Some nm /\ nm <> [] /\ forallb not_dquote nm = true
    /\ m !! 2 = Some id /\ id <> [] /\ forallb is_digit id = true
    /\ m !! 4 = Some pr /\ pr <> [] /\ forallb is_digit pr = true
    /\ m !! 5 = Some op /\ op <> [] /\ forallb is_digit op = true
    /\ m !! 6 = Some ti /\ ti <> [] /\ forallb is_hex ti = true
    /\ m !! 7 = Some (py "0x" ++ ni) /\ ni <> [] /\ forallb is_hex ni = true
    /\ m !! 8 = Some status /\ status <> [].
Proof.
  intros H. apply re_match_Some in H as (st' & H & ->).
  unfold header_pattern in H.
  run_inv; group_text.
  all: match goal with
       | G : ?t = ?g ++ ?b, E1 : ?t = py "0x" ++ ?t6, E2 : ?t6 = ?a ++ ?b |- _ =>
           assert (g = py "0x" ++ a)
             by (rewrite E1, E2, app_assoc in G; now apply app_inv_tail in G);
           subst g
       end.
  all: do 7 eexists.
  all: repeat split; try eassumption;
         rewrite !lookup_insert_ne by discriminate; apply lookup_insert_eq.
Qed.

(** A header that matches carries its four keyed fields; one that lacks
    any of them is rejected. *)
Lemma header_fields (s : str) (m : gmap nat str) :
  re_match header_pattern s = Some m ->
  occurs (py "prio=") s /\ occurs (py "os_prio=") s
  /\ occurs (py "tid=0x") s /\ occurs (py "nid=0x") s.
Proof.
  intros H. apply re_match_Some in H as (st' & H & ->).
  unfold header_pattern in H.
  run_inv; subst.
  all: repeat split.
  all: repeat first [ apply occurs_here
                    | apply (occurs_here2 (py "nid=") (py "0x"))
                    | apply occurs_app_r ].
Qed.

Lemma header_missing_field (s : str) :
  ~ occurs (py "prio=") s \/ ~ occurs (py "os_prio=") s
  \/ ~ occurs (py "tid=0x") s \/ ~ occurs (py "nid=0x") s ->
  re_match header_pattern s = None.
Proof.
  intros H. destruct (re_match header_pattern s) as [m|] eqn:E; [|reflexivity].
  apply header_fields in E. tauto.
Qed.

(** The state the body loop ends with: that of the last state line. *)
Lemma body_loop_state (body : list str) : forall st0 frames0,
  fst (fold_left body_step body (st0, frames0)) =
  match last (List.filter is_state_line (map strip body)) with
  | Some line => strip (replace_del state_prefix line)
  | None => st0
  end.
Proof.
  induction body as [|line body IH]; intros st0 frames0; [reflexivity|].
  change (fold_left body_step (line :: body) (st0, frames0))
    with (fold_left body_step body (body_step (st0, frames0) line)).
  cbn [map List.filter]. unfold is_state_line at 1. unfold body_step at 2.
  destruct (startswith state_prefix (strip line)) eqn:E.
  - rewrite IH, last_cons. now destruct (last _).
  - destruct (_ || _); apply IH.
Qed.

Lemma parse_block_inv (block : str) (t : ThreadInfo) :
  _parse_thread_block block = Some t ->
  exists m,
    re_match header_pattern (strip (first_line block)) = Some m
    /\ name t = group m 1 /\ tid t = group m 6 /\ nid t = group m 7
    /\ state t = fst (parse_body (tl (split_on nl block))).
Proof.
  unfold _parse_thread_block, first_line.
  destruct (split_on nl block) as [|header_line body]; [discriminate|].
  simpl. destruct (re_match _ _) as [m|]; [|discriminate].
  destruct (parse_body body) as [st frames]. intros [= <-].
  exists m. simpl. auto.
Qed.

Lemma parsed_state (block : str) (t : ThreadInfo) :
  _parse_thread_block block = Some t ->
  state t = match last (state_lines block) with
            | Some line => strip (replace_del state_prefix line)
            | None => py "UNKNOWN"
            end.
Proof.
  intros H. apply parse_block_inv in H as (m & _ & _ & _ & _ & ->).
  unfold parse_body. now rewrite body_loop_state.
Qed.

Lemma parse_blocks_app (l1 l2 : list str) :
  parse_blocks (l1 ++ l2)
  = fold_left collect_step l2 (parse_blocks l1).
Proof. unfold parse_blocks. apply fold_left_app. Qed.

(** [str.replace] with the empty string: skipping, and a text without
    occurrence. *)
Lemma replace_del_skip (p a t : str) :
  replace_del_from p (length a) (a ++ t) = replace_del_from p 0 t.
Proof. induction a as [|c a IH]; [reflexivity | exact IH]. Qed.

Lemma replace_del_prefix (p t : str) :
  p <> [] -> replace_del p (p ++ t) = replace_del p t.
Proof.
  intros Hp. destruct p as [|c p]; [congruence|].
  unfold replace_del.
  change ((c :: p) ++ t) with (c :: (p ++ t)). cbn [replace_del_from].
  change (c :: (p ++ t)) with ((c :: p) ++ t).
  rewrite startswith_app. cbn [length]. apply replace_del_skip.
Qed.

Lemma replace_del_absent (p t : str) :
  contains p t = false -> replace_del p t = t.
Proof.
  unfold replace_del. induction t as [|c t IH]; [reflexivity|].
  cbn [contains replace_del_from]. intros H.
  apply orb_false_iff in H as [-> H]. now rewrite IH.
Qed.

(** A parsed [tid] is made of hexadecimal digits only, a parsed [nid] is
    [0x] and hexadecimal digits. *)
Lemma parsed_ids (block : str) (t : ThreadInfo) :
  _parse_thread_block block = Some t ->
  forallb is_hex (tid t) = true
  /\ exists ni, nid t = py "0x" ++ ni /\ forallb is_hex ni = true.
Proof.
  intros H. apply parse_block_inv in H as (m & Hm & _ & -> & -> & _).
  apply header_groups in Hm
    as (nm & id & pr & op & ti & ni & status & H); decompose [and] H.
  unfold group. repeat match goal with E : m !! _ = _ |- _ => rewrite E; clear E end.
  simpl default. eauto.
Qed.

End Parser.

(* ===================================================================== *)
(** ** The classifier, the aggregator and the deduplicator *)
(* ===================================================================== *)

Module Aggregator.
Import JStack Spec Samples.

Lemma contains_occurs (p s : str) : contains p s = true <-> occurs p s.
Proof. apply contains_spec. Qed.

Lemma contains_false_occurs (p s : str) : contains p s = false <-> ~ occurs p s.
Proof.
  rewrite <- contains_occurs. destruct (contains p s); split; congruence.
Qed.

(** The scan of a pattern table returns the label of the first pattern
    that occurs in the name, [Other] when none does. *)
Lemma scan_patterns_spec (table : list (str * str)) (thread_name : str) :
  (exists pre p g post,
      table = pre ++ (p, g) :: post
      /\ occurs p thread_name
      /\ (forall p' g', In (p', g') pre -> ~ occurs p' thread_name)
      /\ scan_patterns table thread_name = g)
  \/ ((forall p g, In (p, g) table -> ~ occurs p thread_name)
      /\ scan_patterns table thread_name = py "Other").
Proof.
  induction table as [|[p g] table IH].
  - right. split; [intros ? ? [] | reflexivity].
  - cbn [scan_patterns]. destruct (contains p thread_name) eqn:E.
    + left. exists [], p, g, table. repeat split.
      * now apply contains_occurs.
      * intros ? ? [].
    + apply contains_false_occurs in E.
      destruct IH as [(pre & p1 & g1 & post & -> & Hocc & Hpre & Hres) | [Hnone Hres]].
      * left. exists ((p, g) :: pre), p1, g1, post. repeat split; try assumption.
        intros p' g' [[= <- <-] | Hin]; [assumption | eauto].
      * right. split; [|assumption].
        intros p' g' [[= <- <-] | Hin]; [assumption | eauto].
Qed.

(** A state that mentions TIMED_WAITING mentions WAITING. *)
Lemma timed_waiting_is_waiting (s : str) :
  contains (py "WAITING") s || contains (py "TIMED_WAITING") s
  = contains (py "WAITING") s.
Proof.
  destruct (contains (py "WAITING") s) eqn:E; [reflexivity|].
  simpl. apply contains_false_occurs. apply contains_false_occurs in E.
  intros (a & b & ->). apply E. exists (a ++ py "TIMED_"), b.
  rewrite <- app_assoc. reflexivity.
Qed.

(** What the loop of [analyze_threads] adds to the three per-state lists
    and to the stack-trace counter. *)
Lemma analyze_loop (threads : list ThreadInfo) : forall s0,
  let s := fold_left analyze_step threads s0 in
  blocked_threads s = blocked_threads s0 ++ List.filter is_blocked threads
  /\ waiting_threads s = waiting_threads s0 ++ List.filter is_waiting threads
  /\ runnable_threads s
     = runnable_threads s0 ++ List.filter is_runnable threads
  /\ stack_traces s
     = fold_left (fun c frame => counter_incr frame c)
                 (first_frames threads) (stack_traces s0)
  /\ total_threads s = total_threads s0
  /\ states s = states s0.
Proof.
  induction threads as [|t threads IH]; intros s0.
  - cbn. rewrite !app_nil_r. repeat split.
  - cbn [fold_left]. specialize (IH (analyze_step s0 t)). cbn zeta in IH.
    destruct IH as (Hb & Hw & Hr & Hs & Ht & Hst).
    rewrite Hb, Hw, Hr, Hs, Ht, Hst. clear Hb Hw Hr Hs Ht Hst.
    cbn [List.filter first_frames flat_map].
    unfold is_blocked, is_waiting, is_runnable, is_blocked.
    unfold analyze_step. rewrite timed_waiting_is_waiting.
    destruct (contains (py "BLOCKED") (state t));
      destruct (contains (py "WAITING") (state t));
      destruct (contains (py "RUNNABLE") (state t));
      cbn [negb andb blocked_threads waiting_threads runnable_threads
           stack_traces total_threads states];
      rewrite <- ?app_assoc; cbn [app];
      (repeat split; try reflexivity);
      destruct (stack_trace t); reflexivity.
Qed.

Lemma dedup_loop (threads : list ThreadInfo) : forall seen out,
  snd (fold_left dedup_step threads (seen, out))
  = out ++ keep_first seen threads.
Proof.
  induction threads as [|t threads IH]; intros seen out.
  - simpl. now rewrite app_nil_r.
  - cbn [fold_left keep_first]. unfold dedup_step at 2.
    destruct (bool_decide (base_name_of (name t) ∈ seen)).
    + apply IH.
    + rewrite IH, <- app_assoc. reflexivity.
Qed.

Lemma dedup_keep_first (threads : list ThreadInfo) :
  _deduplicate_threads_by_name_pattern threads = keep_first ∅ threads.
Proof. unfold _deduplicate_threads_by_name_pattern. now rewrite dedup_loop. Qed.

(** Keys already seen stay out of the result. *)
Lemma keep_first_mono (threads : list ThreadInfo) : forall seen seen',
  seen ⊆ seen' ->
  keep_first seen' (keep_first seen threads) = keep_first seen' threads.
Proof.
  induction threads as [|t threads IH]; intros seen seen' Hsub; [reflexivity|].
  cbn [keep_first].
  destruct (bool_decide (base_name_of (name t) ∈ seen)) eqn:E.
  - apply bool_decide_eq_true in E.
    assert (bool_decide (base_name_of (name t) ∈ seen') = true) as ->
      by (apply bool_decide_eq_true; now apply Hsub).
    now apply IH.
  - cbn [keep_first].
    destruct (bool_decide (base_name_of (name t) ∈ seen')) eqn:E'.
    + apply bool_decide_eq_true in E'. apply IH.
      apply union_subseteq. split; [now apply singleton_subseteq_l | exact Hsub].
    + f_equal. apply IH. now apply union_mono_l.
Qed.

Lemma keep_first_idem (threads : list ThreadInfo) (seen : gset str) :
  keep_first seen (keep_first seen threads) = keep_first seen threads.
Proof. now apply keep_first_mono. Qed.

(** Sorting and truncating keep every element among those of the input. *)
Lemma insert_desc_In {A} (key : A -> nat) (x y : A) (l : list A) :
  In y (insert_desc key x l) -> y = x \/ In y l.
Proof.
  induction l as [|z l IH]; simpl.
  - intuition.
  - destruct (key z <=? key x); simpl; intuition.
Qed.

Lemma sort_desc_In {A} (key : A -> nat) (y : A) (l : list A) :
  In y (sort_desc key l) -> In y l.
Proof.
  induction l as [|x l IH]; simpl; [tauto|].
  intros H. apply insert_desc_In in H as [-> | H]; auto.
Qed.

Lemma percentage_zero_total (count : nat) : percentage count 0 = Some 0%Q.
Proof. reflexivity. Qed.

Lemma analyze_total (threads : list ThreadInfo) :
  total_threads (analyze_threads threads) = length threads.
Proof.
  unfold analyze_threads.
  destruct (analyze_loop threads (init_stats threads)) as (_ & _ & _ & _ & -> & _).
  reflexivity.
Qed.

(** Only records that have frames are counted, under their first frame. *)
Lemma stack_traces_first_frames (threads : list ThreadInfo) :
  stack_traces (analyze_threads threads)
  = fold_left (fun c frame => counter_incr frame c) (first_frames threads) [].
Proof.
  unfold analyze_threads.
  destruct (analyze_loop threads (init_stats threads)) as (_ & _ & _ & -> & _).
  reflexivity.
Qed.

Lemma counter_get_incr (key k : str) (c : list (str * nat)) :
  counter_get key (counter_incr k c)
  = counter_get key c + (if bool_decide (k = key) then 1 else 0).
Proof.
  induction c as [|[k0 n] c IH]; cbn [counter_incr counter_get].
  - reflexivity.
  - destruct (bool_decide (k0 = k)) eqn:E0; cbn [counter_get].
    + apply bool_decide_eq_true in E0. subst k0.
      destruct (bool_decide (k = key)); lia.
    + apply bool_decide_eq_false in E0.
      destruct (bool_decide (k0 = key)) eqn:E1; [|exact IH].
      apply bool_decide_eq_true in E1. subst k0.
      rewrite bool_decide_eq_false_2 by congruence. lia.
Qed.

Lemma counter_get_frames (key : str) (threads : list ThreadInfo) : forall c,
  counter_get key
    (fold_left (fun c frame => counter_incr frame c) (first_frames threads) c)
  = counter_get key c + length (List.filter (first_frame_is key) threads).
Proof.
  induction threads as [|t threads IH]; intros c.
  - simpl. lia.
  - cbn [first_frames flat_map List.filter]. fold (first_frames threads).
    unfold first_frame_is at 1.
    destruct (stack_trace t) as [|frame frames]; cbn [app fold_left].
    + apply IH.
    + rewrite IH, counter_get_incr.
      destruct (bool_decide (frame = key)); cbn [length]; lia.
Qed.

End Aggregator.

(* ===================================================================== *)
(** ** The scenarios of the specification, run on the model *)
(* ===================================================================== *)

Module Scenarios.
Import JStack Spec Samples.

Example strip_both_ends : strip (py "  a b	 ") = py "a b".
Proof. reflexivity. Qed.

Example split_keeps_empty_pieces :
  split_on nl (nl :: py "a" ++ [nl]) = [[]; py "a"; []].
Proof. reflexivity. Qed.

(** Scenario A: one record, not a daemon, RUNNABLE, one frame. *)
Example scenario_A :
  parse_jstack_output thread_1_block
  = [ {| name := py "Thread-1"; thread_id := py "10"; daemon := false;
         priority := py "5"; os_prio := py "0";
         tid := py "01"; nid := py "0x02"; state := py "RUNNABLE";
         stack_trace := [py "at com.example.Foo.bar(Foo.java:10)"] |} ].
Proof. vm_compute. reflexivity. Qed.

(** Scenario B: the daemon keyword; the status stops before the address. *)
Example scenario_B :
  (fun m => (m !! 3, m !! 8, m !! 9))
    <$> re_match header_pattern
          (dquote :: py "T" ++ dquote
             :: py " #10 daemon prio=5 os_prio=0 tid=0x01 nid=0x02 waiting on condition  [0x00007f]")
  = Some (Some (py "daemon "), Some (py "waiting on condition"),
          Some (py "00007f")).
Proof. vm_compute. reflexivity. Qed.

Example scenario_B_record :
  daemon <$> _parse_thread_block thread_3_block = Some true.
Proof. vm_compute. reflexivity. Qed.

(** Scenario C: both pool threads are of the family Thread Pool and share
    one base name; the first one is kept. *)
Example scenario_C_family :
  map (fun t => _get_thread_group (name t)) [pool_thread_1; pool_thread_2]
  = [py "Thread Pool"; py "Thread Pool"].
Proof. vm_compute. reflexivity. Qed.

Example scenario_C_base_name :
  map (fun t => base_name_of (name t)) [pool_thread_1; pool_thread_2]
  = [py "pool-1-thread"; py "pool-1-thread"].
Proof. vm_compute. reflexivity. Qed.

Example scenario_C_dedup :
  _deduplicate_threads_by_name_pattern [pool_thread_1; pool_thread_2]
  = [pool_thread_1].
Proof. vm_compute. reflexivity. Qed.

(** Scenario D: a header without [nid=] gives no record. *)
Example scenario_D :
  parse_blocks [thread_1_block; no_nid_block; thread_3_block]
  = parse_blocks [thread_1_block; thread_3_block].
Proof. vm_compute. reflexivity. Qed.

(** The banner of a dump is split off as a block and then dropped by the
    header parser. *)
Example banner_dump_threads :
  map name (parse_jstack_output banner_dump) = [py "Thread-1"].
Proof. vm_compute. reflexivity. Qed.

Example state_class_of_timed_waiting :
  _get_state_class (py "TIMED_WAITING (sleeping)") = py "state-timed_waiting".
Proof. vm_compute. reflexivity. Qed.

(** The CSS class ignores letter case; the per-state lists do not. *)
Example state_class_ignores_case :
  _get_state_class (state upper_runnable) = py "state-runnable"
  /\ _get_state_class (state lower_runnable) = py "state-runnable".
Proof. split; vm_compute; reflexivity. Qed.

Example percentage_of_one_in_four :
  percentage 1 4 = Some (100 # 4)%Q.
Proof. reflexivity. Qed.

End Scenarios.

(* ===================================================================== *)
(** ** Properties of the block splitter *)
(* ===================================================================== *)

(** C1, as stated, fails: the lines before the first marker are emitted as
    a block of their own, and that block does not begin with a marker
    line. *)
Lemma split_emits_banner_block :
  JStack._split_thread_blocks Samples.banner_dump
    = [Samples.banner_text; Samples.thread_1_block]
  /\ ~ Spec.begins_with_marker Samples.banner_text.
Proof.
  split; [vm_compute; reflexivity|].
  unfold Spec.begins_with_marker. vm_compute. discriminate.
Qed.


(* ===================================================================== *)
(** ** Properties of the header and body parser *)
(* ===================================================================== *)

(** C2, as stated, fails: with two state lines in a block the record
    carries the state of the last one, not of the first. *)
Lemma state_of_last_line_not_first :
  exists t,
    JStack._parse_thread_block Samples.two_state_block = Some t
    /\ Spec.state_of_first_line Samples.two_state_block = py "RUNNABLE"
    /\ JStack.state t = py "BLOCKED (on object monitor)"
    /\ JStack.state t <> Spec.state_of_first_line Samples.two_state_block.
Proof.
  eexists. split; [vm_compute; reflexivity|].
  split; [vm_compute; reflexivity|].
  split; [vm_compute; reflexivity|]. vm_compute. discriminate.
Qed.

(** C2 (amended): the state of a parsed record is taken from the last
    trimmed body line that begins with the state prefix: that line with
    every occurrence of the prefix removed, trimmed; it is UNKNOWN when no
    body line begins with the prefix.  When the text after the prefix holds
    no further occurrence of it, the state is that text, trimmed. *)
Theorem parsed_state_of_last_line (block : str) (t : JStack.ThreadInfo) :
  JStack._parse_thread_block block = Some t ->
  JStack.state t
  = match last (Spec.state_lines block) with
    | Some line => strip (replace_del JStack.state_prefix line)
    | None => py "UNKNOWN"
    end
  /\ (forall line,
        last (Spec.state_lines block) = Some line ->
        contains JStack.state_prefix
                 (skipn (length JStack.state_prefix) line) = false ->
        JStack.state t = strip (skipn (length JStack.state_prefix) line)).
Proof.
  intros H. pose proof (Parser.parsed_state _ _ H) as Hst.
  split; [exact Hst|]. intros line Hlast Hno. rewrite Hst, Hlast.
  assert (Hin : In line (Spec.state_lines block)).
  { apply list_elem_of_In. eapply last_Some_elem_of. exact Hlast. }
  apply filter_In in Hin as [_ Hpre].
  apply startswith_spec in Hpre as [rest ->].
  rewrite skipn_app, skipn_all, Nat.sub_diag in Hno |- *.
  cbn [skipn app] in Hno |- *.
  rewrite Parser.replace_del_prefix by discriminate.
  now rewrite Parser.replace_del_absent.
Qed.

Lemma parsed_state_of_last_line_witness :
  exists t,
    JStack._parse_thread_block Samples.two_state_block = Some t
    /\ JStack.state t = py "BLOCKED (on object monitor)".
Proof.
  eexists. split; [vm_compute; reflexivity|].
  refine (proj1 (parsed_state_of_last_line Samples.two_state_block _ _)).
  vm_compute. reflexivity.
Defined.

(** C3: a block whose first line does not match the header pattern gives no
    record (the parser returns [None] for it; nothing in it can raise), and
    the records collected from a list of blocks are those collected from
    the list without that block. *)
Theorem malformed_block_dropped (before after : list str) (block : str) :
  re_match JStack.header_pattern (strip (Spec.first_line block)) = None ->
  JStack._parse_thread_block block = None
  /\ JStack.parse_blocks (before ++ block :: after)
     = JStack.parse_blocks (before ++ after).
Proof.
  intros Hno.
  assert (Hnone : JStack._parse_thread_block block = None).
  { unfold JStack._parse_thread_block. unfold Spec.first_line in Hno.
    destruct (split_on nl block) as [|header_line body]; [reflexivity|].
    simpl in Hno. now rewrite Hno. }
  split; [exact Hnone|].
  rewrite !Parser.parse_blocks_app. cbn [fold_left].
  unfold JStack.collect_step at 2. now rewrite Hnone.
Qed.

Lemma malformed_block_dropped_witness :
  JStack._parse_thread_block Samples.no_nid_block = None
  /\ JStack.parse_blocks
       ([Samples.thread_1_block] ++ Samples.no_nid_block
          :: [Samples.thread_3_block])
     = JStack.parse_blocks ([Samples.thread_1_block] ++ [Samples.thread_3_block]).
Proof.
  apply (malformed_block_dropped [Samples.thread_1_block]
           [Samples.thread_3_block] Samples.no_nid_block).
  vm_compute. reflexivity.
Defined.

(** C5: the header of Scenario A reads [tid=0x01 nid=0x02]; the record
    keeps [0x02] for [nid] but only [01] for [tid]. *)
Theorem tid_drops_hex_prefix :
  exists t,
    JStack._parse_thread_block Samples.thread_1_block = Some t
    /\ JStack.tid t = py "01" /\ JStack.nid t = py "0x02".
Proof.
  eexists. split; [vm_compute; reflexivity|].
  split; vm_compute; reflexivity.
Qed.

(** C7, as stated, fails: a state line with nothing after the prefix gives
    the record an empty state. *)
Lemma parsed_state_can_be_empty :
  exists t,
    JStack._parse_thread_block Samples.empty_state_block = Some t
    /\ JStack.state t = [].
Proof. eexists. split; vm_compute; reflexivity. Qed.

(** C7 (amended): the name of a parsed record is never empty; its state is
    empty only when the last state line of the block has nothing but
    whitespace left once the prefix is removed (without a state line the
    state is UNKNOWN). *)
Theorem parsed_name_nonempty (block : str) (t : JStack.ThreadInfo) :
  JStack._parse_thread_block block = Some t ->
  JStack.name t <> []
  /\ (JStack.state t = [] ->
      exists line, last (Spec.state_lines block) = Some line
                   /\ strip (replace_del JStack.state_prefix line) = [])
  /\ (Spec.state_lines block = [] -> JStack.state t = py "UNKNOWN").
Proof.
  intros H. split; [|split].
  - apply Parser.parse_block_inv in H as (m & Hm & -> & _).
    apply Parser.header_groups in Hm as (nm & ? & ? & ? & ? & ? & ? & E & Hne & _).
    unfold JStack.group. now rewrite E.
  - rewrite (Parser.parsed_state _ _ H).
    destruct (last (Spec.state_lines block)) as [line|]; [eauto | discriminate].
  - intros Hnone. rewrite (Parser.parsed_state _ _ H), Hnone. reflexivity.
Qed.

Lemma parsed_name_nonempty_witness :
  exists t,
    JStack._parse_thread_block Samples.thread_1_block = Some t
    /\ JStack.name t <> [].
Proof.
  eexists. split; [vm_compute; reflexivity|].
  refine (proj1 (parsed_name_nonempty Samples.thread_1_block _ _)).
  vm_compute. reflexivity.
Defined.


(* ===================================================================== *)
(** ** Properties of the classifier, the aggregator and the deduplicator *)
(* ===================================================================== *)

(** C4: the source names the key [empty] for a record without stack
    frames, yet the guard around the counting leaves such a record out:
    for the one-record list [idle_thread], which has no frames, the
    counter stays empty and the key [empty] counts 0, where the claim
    says 1. *)
Lemma empty_stack_not_counted :
  JStack.stack_trace Samples.idle_thread = []
  /\ JStack.stack_traces (JStack.analyze_threads [Samples.idle_thread]) = []
  /\ JStack.counter_get (py "empty")
       (JStack.stack_traces (JStack.analyze_threads [Samples.idle_thread])) = 0.
Proof. repeat split; vm_compute; reflexivity. Qed.

(** What the stack-pattern counter holds as the code stands: the count of
    a key is the number of records that have frames and whose first frame
    it is. *)
Theorem stack_patterns_count_first_frames
        (threads : list JStack.ThreadInfo) (key : str) :
  JStack.counter_get key (JStack.stack_traces (JStack.analyze_threads threads))
  = length (List.filter (Spec.first_frame_is key) threads).
Proof.
  rewrite Aggregator.stack_traces_first_frames.
  now rewrite Aggregator.counter_get_frames.
Qed.

(** C6, as stated, fails: RUNNABLE and runnable differ in letter case only,
    yet the first record is listed as runnable and the second in no list;
    and a TIMED_WAITING record is listed as waiting. *)
Lemma state_lists_case_sensitive :
  Spec.same_up_to_case (JStack.state Samples.upper_runnable)
                       (JStack.state Samples.lower_runnable)
  /\ let s := JStack.analyze_threads
                [Samples.upper_runnable; Samples.lower_runnable; Samples.sleeper] in
     JStack.blocked_threads s = []
     /\ JStack.waiting_threads s = [Samples.sleeper]
     /\ JStack.runnable_threads s = [Samples.upper_runnable].
Proof.
  split; [vm_compute; reflexivity|].
  cbv zeta. repeat split; vm_compute; reflexivity.
Qed.

(** C6 (amended): membership in the three lists is derived from the raw
    state string, letter case respected, by the first test that holds:
    contains BLOCKED gives blocked; otherwise contains WAITING (which
    TIMED_WAITING does) gives waiting; otherwise contains RUNNABLE gives
    runnable.  Each list keeps the order of the records, and a record is
    in at most one of the three. *)
Theorem state_lists_by_first_match (threads : list JStack.ThreadInfo) :
  let s := JStack.analyze_threads threads in
  JStack.blocked_threads s = List.filter Spec.is_blocked threads
  /\ JStack.waiting_threads s = List.filter Spec.is_waiting threads
  /\ JStack.runnable_threads s = List.filter Spec.is_runnable threads
  /\ (forall t, In t (JStack.blocked_threads s) ->
                ~ In t (JStack.waiting_threads s)
                /\ ~ In t (JStack.runnable_threads s))
  /\ (forall t, In t (JStack.waiting_threads s) ->
                ~ In t (JStack.runnable_threads s))
  /\ (forall t1 t2,
        In t1 threads -> In t2 threads -> JStack.state t1 = JStack.state t2 ->
        (In t1 (JStack.blocked_threads s) <-> In t2 (JStack.blocked_threads s))
        /\ (In t1 (JStack.waiting_threads s) <-> In t2 (JStack.waiting_threads s))
        /\ (In t1 (JStack.runnable_threads s)
            <-> In t2 (JStack.runnable_threads s))).
Proof.
  cbv zeta. unfold JStack.analyze_threads.
  destruct (Aggregator.analyze_loop threads (JStack.init_stats threads))
    as (-> & -> & -> & _).
  cbn [JStack.init_stats JStack.blocked_threads JStack.waiting_threads
       JStack.runnable_threads app].
  split; [reflexivity|]. split; [reflexivity|]. split; [reflexivity|].
  split; [|split].
  - intros t H. apply filter_In in H as [_ Hb]. split.
    + intros Hw. apply filter_In in Hw as [_ Hw].
      unfold Spec.is_waiting in Hw. rewrite Hb in Hw. discriminate.
    + intros Hr. apply filter_In in Hr as [_ Hr].
      unfold Spec.is_runnable in Hr. rewrite Hb in Hr. discriminate.
  - intros t H Hr. apply filter_In in H as [_ Hw].
    apply filter_In in Hr as [_ Hr].
    unfold Spec.is_waiting in Hw. unfold Spec.is_runnable in Hr.
    apply andb_true_iff in Hw as [Hnb Hw]. rewrite Hnb, Hw in Hr. discriminate.
  - intros t1 t2 H1 H2 Hst. rewrite !filter_In.
    unfold Spec.is_runnable, Spec.is_waiting, Spec.is_blocked. rewrite Hst.
    tauto.
Qed.

Lemma state_lists_by_first_match_witness :
  JStack.blocked_threads
    (JStack.analyze_threads
       [Samples.upper_runnable; Samples.lower_runnable; Samples.sleeper])
  = List.filter Spec.is_blocked
      [Samples.upper_runnable; Samples.lower_runnable; Samples.sleeper].
Proof.
  exact (proj1 (state_lists_by_first_match
                  [Samples.upper_runnable; Samples.lower_runnable;
                   Samples.sleeper])).
Defined.

(** C8: the family of a thread name is the label of the first pair of the
    table, in table order, whose pattern occurs in the name, and [Other]
    when no pattern occurs; being a function of the name, it gives every
    name exactly one label. *)
Theorem thread_group_first_match (thread_name : str) :
  (exists! label, JStack._get_thread_group thread_name = label)
  /\ ((exists pre p g post,
          JStack.patterns = pre ++ (p, g) :: post
          /\ Spec.occurs p thread_name
          /\ (forall p' g', In (p', g') pre -> ~ Spec.occurs p' thread_name)
          /\ JStack._get_thread_group thread_name = g)
      \/ ((forall p g, In (p, g) JStack.patterns -> ~ Spec.occurs p thread_name)
          /\ JStack._get_thread_group thread_name = py "Other")).
Proof.
  split.
  - exists (JStack._get_thread_group thread_name). split; [reflexivity | auto].
  - apply Aggregator.scan_patterns_spec.
Qed.

Lemma thread_group_first_match_witness :
  exists! label, JStack._get_thread_group (py "grpc-pool-1") = label.
Proof. exact (proj1 (thread_group_first_match (py "grpc-pool-1"))). Defined.

(** C9: deduplicating an already deduplicated list changes nothing. *)
Theorem dedup_idempotent (threads : list JStack.ThreadInfo) :
  JStack._deduplicate_threads_by_name_pattern
    (JStack._deduplicate_threads_by_name_pattern threads)
  = JStack._deduplicate_threads_by_name_pattern threads.
Proof.
  rewrite !Aggregator.dedup_keep_first. apply Aggregator.keep_first_idem.
Qed.

(** C10: with no threads ([total_threads] is 0) a percentage is 0 whatever
    the count, without a division, and so is every percentage of the three
    tables of the report. *)
Theorem zero_threads_zero_percent (stats : JStack.Stats) :
  JStack.total_threads stats = 0 ->
  (forall count,
      JStack.percentage count (JStack.total_threads stats) = Some 0%Q)
  /\ Forall (fun p => p = Some 0%Q) (JStack.report_percentages stats).
Proof.
  intros Hzero. split.
  - intros count. rewrite Hzero. apply Aggregator.percentage_zero_total.
  - unfold JStack.report_percentages. rewrite Hzero.
    repeat (apply Forall_app; split); apply List.Forall_forall; intros p Hin;
      apply in_map_iff in Hin as ([k v] & <- & _);
      apply Aggregator.percentage_zero_total.
Qed.

Lemma zero_threads_zero_percent_witness :
  JStack.total_threads (JStack.analyze_threads []) = 0
  /\ Forall (fun p => p = Some 0%Q)
            (JStack.report_percentages (JStack.analyze_threads [])).
Proof.
  split; [reflexivity|].
  apply (zero_threads_zero_percent (JStack.analyze_threads [])). reflexivity.
Defined.

(* ===================================================================== *)
(** ** More facts about trimming, joining and splitting *)
(* ===================================================================== *)

Module TextFacts.
Import JStack Spec Notions.

Lemma lstrip_head (s : str) :
  lstrip s = [] \/ exists c t, lstrip s = c :: t /\ is_space c = false.
Proof.
  induction s as [|c s IH]; [now left|].
  simpl. destruct (is_space c) eqn:E; [exact IH|]. right. eauto.
Qed.

Lemma lstrip_idem (s : str) : lstrip (lstrip s) = lstrip s.
Proof.
  destruct (lstrip_head s) as [-> | (c & t & -> & Hc)]; [reflexivity|].
  simpl. now rewrite Hc.
Qed.

Lemma rstrip_idem (s : str) : rstrip (rstrip s) = rstrip s.
Proof. now rewrite !rstrip_rev, rev_involutive, lstrip_idem. Qed.

Lemma lstrip_nonspace (c : ascii) (t : str) :
  is_space c = false -> lstrip (c :: t) = c :: t.
Proof. intros H. simpl. now rewrite H. Qed.

(** Trimming twice is trimming once. *)
Lemma strip_idem (s : str) : strip (strip s) = strip s.
Proof.
  unfold strip.
  destruct (lstrip_head s) as [-> | (c & t & -> & Hc)]; [reflexivity|].
  rewrite (rstrip_cons_nonspace c t Hc), (lstrip_nonspace c _ Hc).
  rewrite <- (rstrip_cons_nonspace c t Hc). apply rstrip_idem.
Qed.

(** Trimming cuts a prefix and a suffix off. *)
Lemma lstrip_suffix (s : str) : exists a, s = a ++ lstrip s.
Proof.
  induction s as [|c s [a IH]]; [now exists []|].
  simpl. destruct (is_space c); [|now exists []].
  exists (c :: a). simpl. now rewrite <- IH.
Qed.

Lemma rstrip_prefix (s : str) : exists b, s = rstrip s ++ b.
Proof.
  induction s as [|c s [b IH]]; [now exists []|].
  simpl. destruct (is_space c && negb (truthy (rstrip s))).
  - now exists (c :: s).
  - exists b. simpl. now rewrite <- IH.
Qed.

Lemma strip_infix (s : str) : exists a b, s = a ++ strip s ++ b.
Proof.
  unfold strip. destruct (lstrip_suffix s) as [a Ha].
  destruct (rstrip_prefix (lstrip s)) as [b Hb].
  exists a, b. now rewrite <- Hb.
Qed.

Lemma occurs_strip (p s : str) : occurs p (strip s) -> occurs p s.
Proof.
  intros (x & y & E). destruct (strip_infix s) as (a & b & Hs).
  exists (a ++ x), (y ++ b). rewrite Hs at 1. rewrite E.
  now rewrite <- !app_assoc.
Qed.

Lemma lstrip_space (c : ascii) (t : str) :
  is_space c = true -> lstrip (c :: t) = lstrip t.
Proof. intros H. simpl. now rewrite H. Qed.

(** Joining and splitting on newlines. *)
Lemma join_nl_cons (line : str) (lines : list str) :
  join_nl (line :: lines) = line ++ concat (map (cons nl) lines).
Proof.
  revert line. induction lines as [|l ls IH]; intros line.
  - simpl. now rewrite app_nil_r.
  - change (join_nl (line :: l :: ls)) with (line ++ nl :: join_nl (l :: ls)).
    rewrite IH. reflexivity.
Qed.

Lemma join_split (s : str) : join_nl (split_on nl s) = s.
Proof.
  induction s as [|c s IH]; [reflexivity|].
  simpl. destruct (ch_eqb c nl) eqn:E.
  - apply ch_eqb_true in E. subst c.
    pose proof (split_on_not_nil nl s) as Hne.
    destruct (split_on nl s) as [|l ls]; [congruence|].
    change (join_nl ([] :: l :: ls)) with ([] ++ nl :: join_nl (l :: ls)).
    now rewrite IH.
  - pose proof (split_on_not_nil nl s) as Hne.
    destruct (split_on nl s) as [|l ls]; [congruence|].
    rewrite join_nl_cons. rewrite join_nl_cons in IH.
    simpl. now rewrite IH.
Qed.

End TextFacts.

(* ===================================================================== *)
(** ** More properties of the block splitter *)
(* ===================================================================== *)

Module SplitterMore.
Import JStack Spec Notions Samples TextFacts.

(** The block in progress when no line starts a block. *)
Lemma split_loop_no_start (lines : list str) : forall blocks cur,
  Forall (fun l => is_block_start l = false) lines ->
  fold_left split_step lines (blocks, cur)
  = (blocks,
     fold_left (fun cur line =>
                  if truthy cur then cur ++ nl :: line else line) lines cur).
Proof.
  induction lines as [|line lines IH]; intros blocks cur Hall; [reflexivity|].
  inversion Hall as [|? ? Hline Hrest]; subst.
  cbn [fold_left]. unfold split_step at 2. rewrite Hline. cbn [andb].
  now apply IH.
Qed.

Lemma glue_truthy (lines : list str) : forall cur,
  truthy cur = true ->
  fold_left (fun cur line => if truthy cur then cur ++ nl :: line else line)
            lines cur
  = cur ++ concat (map (cons nl) lines).
Proof.
  induction lines as [|line lines IH]; intros cur Hcur.
  - simpl. now rewrite app_nil_r.
  - cbn [fold_left]. rewrite Hcur. rewrite IH by (now destruct cur).
    simpl. now rewrite <- app_assoc.
Qed.

Lemma glue_strip (lines : list str) :
  strip (fold_left (fun cur line =>
                      if truthy cur then cur ++ nl :: line else line) lines [])
  = strip (join_nl lines).
Proof.
  induction lines as [|line lines IH]; [reflexivity|].
  cbn [fold_left truthy]. destruct line as [|c line].
  - rewrite IH. destruct lines as [|l ls]; [reflexivity|].
    change (join_nl ([] :: l :: ls)) with (nl :: join_nl (l :: ls)).
    unfold strip. now rewrite (lstrip_space nl) by reflexivity.
  - rewrite glue_truthy by reflexivity. now rewrite join_nl_cons.
Qed.

Lemma split_loop_trimmed (lines : list str) : forall blocks cur blocks' cur',
  Forall (fun b => strip b = b) blocks ->
  fold_left split_step lines (blocks, cur) = (blocks', cur') ->
  Forall (fun b => strip b = b) blocks'.
Proof.
  induction lines as [|line lines IH]; intros blocks cur blocks' cur' Hall.
  - simpl. now intros [= <- <-].
  - cbn [fold_left]. unfold split_step at 2.
    destruct (is_block_start line && truthy cur); apply IH; [|assumption].
    apply Forall_app. split; [assumption|].
    constructor; [apply strip_idem | constructor].
Qed.

Lemma split_loop_count (lines : list str) : forall blocks cur blocks' cur',
  fold_left split_step lines (blocks, cur) = (blocks', cur') ->
  length blocks' <= length blocks + length (List.filter is_block_start lines).
Proof.
  induction lines as [|line lines IH]; intros blocks cur blocks' cur'.
  - simpl. intros [= <- <-]. lia.
  - cbn [fold_left List.filter]. unfold split_step at 2.
    destruct (is_block_start line) eqn:E; cbn [andb].
    + destruct (truthy cur); intros H; apply IH in H;
        rewrite ?length_app in H; cbn [length] in *; lia.
    + intros H. apply IH in H. lia.
Qed.

(** When no line after the first starts a block there is one block. *)
Lemma split_one_block (content : str) :
  Forall (fun l => is_block_start l = false) (tl (split_on nl content)) ->
  _split_thread_blocks content
  = if truthy (strip content) then [strip content] else [].
Proof.
  intros Hrest. unfold _split_thread_blocks.
  pose proof (join_split content) as Hjoin.
  destruct (split_on nl content) as [|line lines] eqn:Hsplit;
    [now apply split_on_not_nil in Hsplit|].
  cbn [tl] in Hrest.
  assert (Hfold :
    fold_left split_step (line :: lines) ([], [])
    = ([], fold_left (fun cur l => if truthy cur then cur ++ nl :: l else l)
                     (line :: lines) [])).
  { cbn [fold_left]. unfold split_step at 2.
    rewrite andb_false_r. cbn [truthy].
    now apply split_loop_no_start. }
  rewrite Hfold, glue_strip, Hjoin. reflexivity.
Qed.

End SplitterMore.

(** X1: every emitted block is trimmed: it has no leading and no trailing
    whitespace. *)
Theorem split_blocks_trimmed (content : str) :
  Forall (fun b => strip b = b) (JStack._split_thread_blocks content).
Proof.
  unfold JStack._split_thread_blocks.
  destruct (fold_left _ _ _) as [blocks cur] eqn:Hfold.
  apply SplitterMore.split_loop_trimmed in Hfold; [|constructor].
  destruct (truthy (strip cur)); [|assumption].
  apply Forall_app. split; [assumption|].
  constructor; [apply TextFacts.strip_idem | constructor].
Qed.

(** X2: when no line after the first starts a block, the splitter emits the
    trimmed text as its only block, and nothing at all when the text is
    blank (the empty text included). *)
Theorem split_single_block (content : str) :
  Forall (fun l => JStack.is_block_start l = false) (tl (split_on nl content)) ->
  JStack._split_thread_blocks content
  = if truthy (strip content) then [strip content] else [].
Proof. apply SplitterMore.split_one_block. Qed.

Lemma split_single_block_witness :
  JStack._split_thread_blocks Samples.thread_1_block
  = [Samples.thread_1_block].
Proof.
  rewrite (split_single_block Samples.thread_1_block).
  - vm_compute. reflexivity.
  - vm_compute. repeat constructor.
Defined.

(** X3: the splitter emits at most one block more than there are lines,
    after the first, that start a block. *)
Theorem split_block_count (content : str) :
  length (JStack._split_thread_blocks content)
  <= S (Notions.later_block_starts content).
Proof.
  unfold JStack._split_thread_blocks, Notions.later_block_starts.
  destruct (split_on nl content) as [|line lines] eqn:Hsplit;
    [now apply split_on_not_nil in Hsplit|].
  cbn [fold_left tl]. unfold JStack.split_step at 2.
  rewrite andb_false_r. cbn [truthy].
  destruct (fold_left _ _ _) as [blocks cur] eqn:Hfold.
  apply SplitterMore.split_loop_count in Hfold. cbn [length] in Hfold.
  destruct (truthy (strip cur)); rewrite ?length_app; cbn [length]; lia.
Qed.

(* ===================================================================== *)
(** ** More properties of the header and body parser *)
(* ===================================================================== *)

Module ParserMore.
Import JStack Spec Notions Samples Snapshot TextFacts.

(** What the loop over the first ten lines ends with. *)
Lemma banner_loop (lines : list str) : forall info stamp,
  fold_left banner_step lines (info, stamp)
  = (match last (List.filter (contains banner_text) lines) with
     | Some line => Some (strip line)
     | None => info
     end,
     match last (List.filter
                   (fun l => negb (contains banner_text l) && is_date_start l)
                   lines) with
     | Some line => Some (strip line)
     | None => stamp
     end).
Proof.
  induction lines as [|line lines IH]; intros info stamp; [reflexivity|].
  cbn [fold_left List.filter]. unfold banner_step at 2.
  destruct (contains banner_text line) eqn:E; cbn [negb andb].
  - rewrite IH, last_cons. now destruct (last _).
  - destruct (is_date_start line) eqn:D.
    + rewrite IH, last_cons.
      now destruct (last (List.filter (fun l => _ && _) lines)).
    + apply IH.
Qed.

(** All the fields of a record, from the groups of the match. *)
Lemma parse_block_fields (block : str) (t : ThreadInfo) :
  _parse_thread_block block = Some t ->
  exists m,
    re_match header_pattern (strip (first_line block)) = Some m
    /\ name t = group m 1 /\ thread_id t = group m 2
    /\ daemon t = bool_decide (is_Some (m !! 3))
    /\ priority t = group m 4 /\ os_prio t = group m 5
    /\ tid t = group m 6 /\ nid t = group m 7
    /\ state t = fst (parse_body (tl (split_on nl block)))
    /\ stack_trace t = snd (parse_body (tl (split_on nl block))).
Proof.
  unfold _parse_thread_block, first_line.
  destruct (split_on nl block) as [|header_line body]; [discriminate|].
  simpl. destruct (re_match _ _) as [m|]; [|discriminate].
  destruct (parse_body body) as [st frames]. intros [= <-].
  exists m. simpl. repeat split; reflexivity.
Qed.

Lemma state_line_not_frame (line : str) :
  startswith state_prefix line = true -> is_frame_line line = false.
Proof.
  intros H. apply startswith_spec in H as [t ->]. reflexivity.
Qed.

(** The frames the body loop ends with: the frame lines, in order. *)
Lemma body_loop_frames (body : list str) : forall st0 frames0,
  snd (fold_left body_step body (st0, frames0))
  = frames0 ++ List.filter is_frame_line (map strip body).
Proof.
  induction body as [|line body IH]; intros st0 frames0.
  - simpl. now rewrite app_nil_r.
  - change (fold_left body_step (line :: body) (st0, frames0))
      with (fold_left body_step body (body_step (st0, frames0) line)).
    cbn [map List.filter]. unfold body_step at 2.
    destruct (startswith state_prefix (strip line)) eqn:E.
    + rewrite (state_line_not_frame _ E). apply IH.
    + unfold is_frame_line at 1.
      destruct (_ || _); rewrite IH; [|reflexivity].
      now rewrite <- app_assoc.
Qed.

(** A header whose daemon group took part carries the keyword. *)
Lemma header_daemon (s : str) (m : gmap nat str) :
  re_match header_pattern s = Some m ->
  is_Some (m !! 3) -> occurs (py "daemon") s.
Proof.
  intros H. apply re_match_Some in H as (st' & H & ->).
  unfold header_pattern in H.
  run_inv; subst; intros [x Hx].
  all: rewrite ?lookup_insert_ne in Hx by discriminate.
  all: try (rewrite lookup_empty in Hx; discriminate).
  all: repeat first [ apply occurs_here | apply occurs_app_r ].
Qed.

Lemma collect_loop (blocks : list str) : forall threads,
  fold_left collect_step blocks threads = threads ++ parse_blocks blocks.
Proof.
  unfold parse_blocks.
  induction blocks as [|b blocks IH]; intros threads.
  - simpl. now rewrite app_nil_r.
  - cbn [fold_left]. rewrite IH, (IH (collect_step [] b)).
    unfold collect_step. destruct (_parse_thread_block b); simpl.
    + now rewrite <- app_assoc.
    + reflexivity.
Qed.

Lemma parse_blocks_length (blocks : list str) :
  length (parse_blocks blocks) <= length blocks.
Proof.
  induction blocks as [|b blocks IH]; [simpl; lia|].
  change (parse_blocks (b :: blocks))
    with (fold_left collect_step blocks (collect_step [] b)).
  rewrite collect_loop, length_app. cbn [length].
  unfold collect_step. destruct (_parse_thread_block b); cbn [length app]; lia.
Qed.

End ParserMore.

(** X4: the banner and the timestamp are looked for in the first ten lines
    only.  [jvm_info] is the last of these lines that contains the banner
    text, trimmed; [timestamp] is the last of them that starts with a date
    and does not contain the banner text, trimmed; each is [None] without
    such a line. *)
Theorem banner_of_last_match (content : str) :
  Snapshot.extract_banner content
  = (strip <$> last (List.filter (contains Snapshot.banner_text)
                       (firstn 10 (split_on nl content))),
     strip <$> last (List.filter
                       (fun l => negb (contains Snapshot.banner_text l)
                                 && Snapshot.is_date_start l)
                       (firstn 10 (split_on nl content)))).
Proof.
  unfold Snapshot.extract_banner. rewrite ParserMore.banner_loop.
  f_equal; now destruct (last _).
Qed.

(** X5: the fields of every parsed record are well formed: the name is not
    empty and holds no double quote; thread id, priority and OS priority
    are non-empty strings of decimal digits; [tid] is a non-empty string of
    lower-case hexadecimal digits; [nid] is [0x] followed by such a
    string. *)
Theorem parsed_fields_wellformed (block : str) (t : JStack.ThreadInfo) :
  JStack._parse_thread_block block = Some t ->
  (JStack.name t <> [] /\ forallb JStack.not_dquote (JStack.name t) = true)
  /\ (JStack.thread_id t <> [] /\ forallb is_digit (JStack.thread_id t) = true)
  /\ (JStack.priority t <> [] /\ forallb is_digit (JStack.priority t) = true)
  /\ (JStack.os_prio t <> [] /\ forallb is_digit (JStack.os_prio t) = true)
  /\ (JStack.tid t <> [] /\ forallb is_hex (JStack.tid t) = true)
  /\ (exists digits, JStack.nid t = py "0x" ++ digits /\ digits <> []
                     /\ forallb is_hex digits = true).
Proof.
  intros H.
  apply ParserMore.parse_block_fields in H
    as (m & Hm & -> & -> & _ & -> & -> & -> & -> & _).
  apply Parser.header_groups in Hm
    as (nm & id & pr & op & ti & ni & status & H); decompose [and] H.
  unfold JStack.group.
  repeat match goal with E : m !! _ = _ |- _ => rewrite E; clear E end.
  cbn [default]. repeat split; try assumption. eauto.
Qed.

Lemma parsed_fields_wellformed_witness :
  exists t,
    JStack._parse_thread_block Samples.thread_3_block = Some t
    /\ JStack.thread_id t <> [].
Proof.
  eexists. split; [vm_compute; reflexivity|].
  refine (proj1 (proj1 (proj2
            (parsed_fields_wellformed Samples.thread_3_block _ _)))).
  vm_compute. reflexivity.
Defined.

(** X6: the stack trace of a parsed record is made of the trimmed body
    lines that begin with [at ] or [- ], all of them, in the order of the
    block. *)
Theorem parsed_stack_trace (block : str) (t : JStack.ThreadInfo) :
  JStack._parse_thread_block block = Some t ->
  JStack.stack_trace t
  = List.filter Notions.is_frame_line (Spec.body_lines block).
Proof.
  intros H.
  apply ParserMore.parse_block_fields in H
    as (m & _ & _ & _ & _ & _ & _ & _ & _ & _ & ->).
  unfold JStack.parse_body. now rewrite ParserMore.body_loop_frames.
Qed.

Lemma parsed_stack_trace_witness :
  exists t,
    JStack._parse_thread_block Samples.thread_1_block = Some t
    /\ JStack.stack_trace t
       = List.filter Notions.is_frame_line
           (Spec.body_lines Samples.thread_1_block).
Proof.
  eexists. split; [vm_compute; reflexivity|].
  apply (parsed_stack_trace Samples.thread_1_block).
  vm_compute. reflexivity.
Defined.

(** X7: the state and the stack frames of a parsed record carry no
    leading or trailing whitespace. *)
Theorem parsed_text_trimmed (block : str) (t : JStack.ThreadInfo) :
  JStack._parse_thread_block block = Some t ->
  strip (JStack.state t) = JStack.state t
  /\ Forall (fun frame => strip frame = frame) (JStack.stack_trace t).
Proof.
  intros H. split.
  - rewrite (Parser.parsed_state _ _ H).
    destruct (last _); [apply TextFacts.strip_idem | reflexivity].
  - apply ParserMore.parse_block_fields in H
      as (m & _ & _ & _ & _ & _ & _ & _ & _ & _ & ->).
    unfold JStack.parse_body. rewrite ParserMore.body_loop_frames.
    cbn [app]. apply List.Forall_forall. intros frame Hin.
    apply filter_In in Hin as [Hin _].
    apply in_map_iff in Hin as (line & <- & _). apply TextFacts.strip_idem.
Qed.

Lemma parsed_text_trimmed_witness :
  exists t,
    JStack._parse_thread_block Samples.thread_1_block = Some t
    /\ strip (JStack.state t) = JStack.state t.
Proof.
  eexists. split; [vm_compute; reflexivity|].
  refine (proj1 (parsed_text_trimmed Samples.thread_1_block _ _)).
  vm_compute. reflexivity.
Defined.

(** X8: a record is a daemon only if the first line of its block holds the
    word [daemon]. *)
Theorem daemon_needs_keyword (block : str) (t : JStack.ThreadInfo) :
  JStack._parse_thread_block block = Some t ->
  ~ Spec.occurs (py "daemon") (Spec.first_line block) ->
  JStack.daemon t = false.
Proof.
  intros H Hno.
  apply ParserMore.parse_block_fields in H as (m & Hm & _ & _ & -> & _).
  apply bool_decide_eq_false. intros Hsome. apply Hno.
  apply TextFacts.occurs_strip. now apply (ParserMore.header_daemon _ m).
Qed.

Lemma daemon_needs_keyword_witness :
  exists t,
    JStack._parse_thread_block Samples.thread_1_block = Some t
    /\ JStack.daemon t = false.
Proof.
  eexists. split; [vm_compute; reflexivity|].
  apply (daemon_needs_keyword Samples.thread_1_block);
    [vm_compute; reflexivity|].
  apply Aggregator.contains_false_occurs. vm_compute. reflexivity.
Defined.

(** X9: the records of a list of blocks are those of its parts, in order:
    parsing distributes over concatenation, and gives at most one record
    per block. *)
Theorem parse_blocks_concat (blocks1 blocks2 : list str) :
  JStack.parse_blocks (blocks1 ++ blocks2)
  = JStack.parse_blocks blocks1 ++ JStack.parse_blocks blocks2
  /\ length (JStack.parse_blocks blocks1) <= length blocks1.
Proof.
  split; [|apply ParserMore.parse_blocks_length].
  rewrite Parser.parse_blocks_app. apply ParserMore.collect_loop.
Qed.

Module OrderedFields.
Import JStack Spec Notions TextFacts.

Lemma in_order_skip (ps : list str) (a t : str) :
  occurs_in_order ps t -> occurs_in_order ps (a ++ t).
Proof.
  destruct ps as [|p ps]; [trivial|].
  intros (x & y & -> & H). exists (a ++ x), y. split; [|exact H].
  now rewrite <- app_assoc.
Qed.

Lemma in_order_here (p : str) (ps : list str) (t : str) :
  occurs_in_order ps t -> occurs_in_order (p :: ps) (p ++ t).
Proof. intros H. now exists [], t. Qed.

Lemma in_order_here2 (p1 p2 : str) (ps : list str) (t : str) :
  occurs_in_order ps t -> occurs_in_order ((p1 ++ p2) :: ps) (p1 ++ p2 ++ t).
Proof. intros H. exists [], t. split; [|exact H]. now rewrite <- app_assoc. Qed.

Lemma in_order_strip (ps : list str) (s : str) :
  occurs_in_order ps (strip s) -> occurs_in_order ps s.
Proof.
  destruct ps as [|p ps]; [trivial|].
  intros (x & y & E & H). destruct (strip_infix s) as (a & b & Hs).
  exists (a ++ x), (y ++ b). split.
  - rewrite Hs at 1. rewrite E. now rewrite <- !app_assoc.
  - clear E. revert y H. induction ps as [|q ps IH]; intros y H; [trivial|].
    destruct H as (u & v & -> & H). exists u, (v ++ b). split.
    + now rewrite <- !app_assoc.
    + now apply IH.
Qed.

(** Two suffixes of one text: the longer one ends with the shorter. *)
Lemma suffix_of_suffix (u t' v t : str) :
  u ++ t' = v ++ t -> length u <= length v -> exists x, t' = x ++ t.
Proof.
  revert v. induction u as [|c u IH]; intros v E Hl.
  - exists v. exact E.
  - destruct v as [|d v]; [simpl in Hl; lia|].
    injection E as _ E. apply (IH v E). simpl in Hl. lia.
Qed.

Lemma after_first_Some (p s t : str) :
  after_first p s = Some t -> exists a, s = a ++ p ++ t.
Proof.
  induction s as [|c s IH].
  - cbn [after_first]. destruct (startswith p []) eqn:E; [|discriminate].
    intros [= <-]. apply startswith_spec in E as [r Hr]. exists [].
    rewrite Hr at 1. cbn [app]. f_equal.
    rewrite Hr, skipn_app, skipn_all, Nat.sub_diag. reflexivity.
  - cbn [after_first]. destruct (startswith p (c :: s)) eqn:E.
    + intros [= <-]. apply startswith_spec in E as [r Hr]. exists [].
      rewrite Hr at 1. cbn [app]. f_equal.
      rewrite Hr, skipn_app, skipn_all, Nat.sub_diag. reflexivity.
    + intros H. apply IH in H as [a ->]. now exists (c :: a).
Qed.

Lemma after_first_complete (p t : str) : forall a,
  exists t' x, after_first p (a ++ p ++ t) = Some t' /\ t' = x ++ t.
Proof.
  intros a. remember (a ++ p ++ t) as s eqn:Hs. revert a Hs.
  induction s as [|c s IH]; intros a Hs.
  - destruct a; [|discriminate]. simpl in Hs.
    destruct p; [|discriminate]. simpl in Hs. subst t.
    exists [], []. split; reflexivity.
  - cbn [after_first]. destruct (startswith p (c :: s)) eqn:E.
    + apply startswith_spec in E as [r Hr].
      exists (skipn (length p) (c :: s)).
      assert (Hr' : skipn (length p) (c :: s) = r)
        by (rewrite Hr, skipn_app, skipn_all, Nat.sub_diag; reflexivity).
      rewrite Hr'.
      destruct (suffix_of_suffix p r (a ++ p) t) as [x Hx].
      * rewrite <- Hr, Hs. now rewrite <- app_assoc.
      * rewrite length_app. lia.
      * exists x. split; [reflexivity | exact Hx].
    + destruct a as [|d a].
      * simpl in Hs. rewrite Hs, startswith_app in E. discriminate.
      * injection Hs as _ Hs. apply (IH a Hs).
Qed.

(** The check decides the ordered occurrence. *)
Lemma in_order_b_spec (ps : list str) : forall s,
  in_order_b ps s = true <-> occurs_in_order ps s.
Proof.
  induction ps as [|p ps IH]; intros s; cbn [in_order_b occurs_in_order].
  - tauto.
  - split.
    + destruct (after_first p s) as [t|] eqn:E; [|discriminate].
      intros H. apply after_first_Some in E as [a ->].
      exists a, t. split; [reflexivity|]. now apply IH.
    + intros (a & t & -> & H).
      destruct (after_first_complete p t a) as (t' & x & -> & ->).
      apply IH. now apply in_order_skip.
Qed.

(** A header that matches holds its keyed fields one after the other. *)
Lemma header_fields_in_order (s : str) (m : gmap nat str) :
  re_match header_pattern s = Some m -> occurs_in_order keyed_fields s.
Proof.
  intros H. apply re_match_Some in H as (st' & H & ->).
  unfold header_pattern in H.
  run_inv; subst; unfold keyed_fields.
  all: repeat first [ apply in_order_here
                    | apply (in_order_here2 (py "nid=") (py "0x"))
                    | apply in_order_skip ].
  all: exact I.
Qed.

End OrderedFields.

(** X10: a block gives no record unless its first line holds the keyed
    fields [prio=], [os_prio=], [tid=0x] and [nid=0x] one after the other,
    in this order and without overlap; the [prio=] inside [os_prio=] does
    not stand for the priority field, so a line that lacks any one of the
    four fields is rejected. *)
Theorem missing_field_rejected (block : str) :
  ~ Notions.occurs_in_order Notions.keyed_fields (Spec.first_line block) ->
  JStack._parse_thread_block block = None.
Proof.
  intros H.
  destruct (JStack._parse_thread_block block) as [t|] eqn:E; [|reflexivity].
  apply ParserMore.parse_block_fields in E as (m & Hm & _).
  apply OrderedFields.header_fields_in_order in Hm.
  apply OrderedFields.in_order_strip in Hm. contradiction.
Qed.

Lemma missing_field_rejected_witness :
  JStack._parse_thread_block MoreSamples.no_prio_block = None.
Proof.
  apply (missing_field_rejected MoreSamples.no_prio_block).
  rewrite <- OrderedFields.in_order_b_spec. vm_compute. discriminate.
Defined.

(* ===================================================================== *)
(** ** More facts about the aggregator *)
(* ===================================================================== *)

Module AggregatorMore.
Import JStack Spec Notions Samples PyDict.

(** The fields the loop of [analyze_threads] leaves alone, and the groups
    it builds. *)
Lemma analyze_loop_groups (threads : list ThreadInfo) : forall s0,
  let s := fold_left analyze_step threads s0 in
  daemon_threads s = daemon_threads s0
  /\ non_daemon_threads s = non_daemon_threads s0
  /\ thread_groups s
     = fold_left (fun g t => group_append (_get_thread_group (name t)) t g)
                 threads (thread_groups s0).
Proof.
  induction threads as [|t threads IH]; intros s0; [cbn; auto|].
  cbn [fold_left]. specialize (IH (analyze_step s0 t)). cbn zeta in IH.
  destruct IH as (-> & -> & ->).
  unfold analyze_step.
  destruct (contains (py "BLOCKED") (state t));
    destruct (contains (py "WAITING") (state t)
              || contains (py "TIMED_WAITING") (state t));
    destruct (contains (py "RUNNABLE") (state t));
    cbn [daemon_threads non_daemon_threads thread_groups]; auto.
Qed.

Lemma filter_split_length {A} (f : A -> bool) (l : list A) :
  length (List.filter f l) + length (List.filter (fun x => negb (f x)) l)
  = length l.
Proof.
  induction l as [|x l IH]; [reflexivity|].
  cbn [List.filter]. destruct (f x); cbn [negb length]; lia.
Qed.

(** Counters: total and keys after an increment. *)
Lemma counter_total_incr (k : str) (c : list (str * nat)) :
  counter_total (counter_incr k c) = S (counter_total c).
Proof.
  induction c as [|[k0 n] c IH]; [reflexivity|].
  cbn [counter_incr]. destruct (bool_decide (k0 = k));
    unfold counter_total in *; cbn [fold_right snd] in *; lia.
Qed.

Lemma counter_keys_incr (k : str) (c : list (str * nat)) :
  map fst (counter_incr k c)
  = if bool_decide (k ∈ map fst c) then map fst c else map fst c ++ [k].
Proof.
  induction c as [|[k0 n] c IH]; [reflexivity|].
  cbn [counter_incr map fst]. destruct (bool_decide (k0 = k)) eqn:E.
  - apply bool_decide_eq_true in E. subst k0.
    rewrite bool_decide_eq_true_2 by (apply elem_of_cons; now left).
    reflexivity.
  - apply bool_decide_eq_false in E. cbn [map fst]. rewrite IH.
    destruct (bool_decide (k ∈ map fst c)) eqn:E'.
    + apply bool_decide_eq_true in E'.
      rewrite bool_decide_eq_true_2 by (apply elem_of_cons; now right).
      reflexivity.
    + apply bool_decide_eq_false in E'.
      rewrite bool_decide_eq_false_2; [reflexivity|].
      rewrite elem_of_cons. intros [?|?]; [congruence | tauto].
Qed.

Lemma keys_snoc_nodup (k : str) (keys : list str) :
  NoDup keys ->
  NoDup (if bool_decide (k ∈ keys) then keys else keys ++ [k]).
Proof.
  intros H. destruct (bool_decide (k ∈ keys)) eqn:E; [assumption|].
  apply bool_decide_eq_false in E.
  apply NoDup_app. split; [assumption|]. split.
  - intros x Hx Hk. apply list_elem_of_singleton in Hk. subst. tauto.
  - apply NoDup_singleton.
Qed.

Lemma counter_keys_nodup (k : str) (c : list (str * nat)) :
  NoDup (map fst c) -> NoDup (map fst (counter_incr k c)).
Proof. intros H. rewrite counter_keys_incr. now apply keys_snoc_nodup. Qed.

(** A counter filled from a list of keys. *)
Lemma counter_fill {A} (key : A -> str) (l : list A) : forall c,
  let c' := fold_left (fun c x => counter_incr (key x) c) l c in
  (forall k, counter_get k c'
             = counter_get k c
               + length (List.filter (fun x => bool_decide (key x = k)) l))
  /\ counter_total c' = counter_total c + length l
  /\ (NoDup (map fst c) -> NoDup (map fst c')).
Proof.
  induction l as [|x l IH]; intros c.
  - cbn. repeat split; intros; auto; lia.
  - cbn [fold_left]. specialize (IH (counter_incr (key x) c)). cbn zeta in *.
    destruct IH as (Hget & Htot & Hnd). repeat split.
    + intros k. rewrite Hget, Aggregator.counter_get_incr. cbn [List.filter].
      destruct (bool_decide (key x = k)); cbn [length]; lia.
    + rewrite Htot, counter_total_incr. cbn [length]. lia.
    + intros H. apply Hnd. now apply counter_keys_nodup.
Qed.

(** Groups: lookup and keys after an append. *)
Lemma group_get_append (g k : str) (t : ThreadInfo)
      (G : list (str * list ThreadInfo)) :
  dict_get g (group_append k t G)
  = if bool_decide (k = g) then Some (default [] (dict_get g G) ++ [t])
    else dict_get g G.
Proof.
  induction G as [|[k0 ts] G IH].
  - cbn [group_append dict_get]. now destruct (bool_decide (k = g)).
  - cbn [group_append]. destruct (bool_decide (k0 = k)) eqn:E.
    + apply bool_decide_eq_true in E. subst k0. cbn [dict_get].
      now destruct (bool_decide (k = g)).
    + apply bool_decide_eq_false in E. cbn [dict_get]. rewrite IH.
      destruct (bool_decide (k0 = g)) eqn:E0; [|reflexivity].
      apply bool_decide_eq_true in E0. subst k0.
      now rewrite bool_decide_eq_false_2 by congruence.
Qed.

Lemma group_keys_append (k : str) (t : ThreadInfo)
      (G : list (str * list ThreadInfo)) :
  map fst (group_append k t G)
  = if bool_decide (k ∈ map fst G) then map fst G else map fst G ++ [k].
Proof.
  induction G as [|[k0 ts] G IH]; [reflexivity|].
  cbn [group_append map fst]. destruct (bool_decide (k0 = k)) eqn:E.
  - apply bool_decide_eq_true in E. subst k0.
    rewrite bool_decide_eq_true_2 by (apply elem_of_cons; now left).
    reflexivity.
  - apply bool_decide_eq_false in E. cbn [map fst]. rewrite IH.
    destruct (bool_decide (k ∈ map fst G)) eqn:E'.
    + apply bool_decide_eq_true in E'.
      rewrite bool_decide_eq_true_2 by (apply elem_of_cons; now right).
      reflexivity.
    + apply bool_decide_eq_false in E'.
      rewrite bool_decide_eq_false_2; [reflexivity|].
      rewrite elem_of_cons. intros [?|?]; [congruence | tauto].
Qed.

Lemma group_fill (threads : list ThreadInfo) : forall G,
  let G' := fold_left
              (fun g t => group_append (_get_thread_group (name t)) t g)
              threads G in
  (forall g, dict_get g G'
             = match List.filter (in_family g) threads with
               | [] => dict_get g G
               | ts => Some (default [] (dict_get g G) ++ ts)
               end)
  /\ (NoDup (map fst G) -> NoDup (map fst G')).
Proof.
  induction threads as [|t threads IH]; intros G; [cbn; auto|].
  cbn [fold_left].
  specialize (IH (group_append (_get_thread_group (name t)) t G)).
  cbn zeta in *. destruct IH as (Hget & Hnd). split.
  - intros g. rewrite Hget, group_get_append. cbn [List.filter].
    unfold in_family at 2.
    destruct (bool_decide (_get_thread_group (name t) = g)).
    + destruct (List.filter (in_family g) threads) as [|t' ts];
        [reflexivity|].
      change (default [] (Some ?x)) with x. now rewrite <- app_assoc.
    + reflexivity.
  - intros H. apply Hnd. rewrite group_keys_append.
    now apply keys_snoc_nodup.
Qed.

(** Three tests of which at most one holds select at most the whole list. *)
Lemma filter3_length {A} (p q r : A -> bool) (l : list A) :
  (forall x, (p x = true -> q x = false /\ r x = false)
             /\ (q x = true -> r x = false)) ->
  length (List.filter p l) + length (List.filter q l)
  + length (List.filter r l) <= length l.
Proof.
  intros Hex. induction l as [|x l IH]; [simpl; lia|].
  cbn [List.filter]. destruct (Hex x) as [Hp Hq].
  destruct (p x) eqn:P.
  - destruct (Hp eq_refl) as [-> ->]. cbn [length]. lia.
  - destruct (q x) eqn:Q.
    + rewrite (Hq eq_refl). cbn [length]. lia.
    + destruct (r x); cbn [length]; lia.
Qed.

(** Lower-casing keeps occurrences. *)
Lemma contains_lower (p s : str) :
  contains p s = true -> contains (lower p) (lower s) = true.
Proof.
  rewrite !contains_spec. intros (a & b & ->).
  exists (lower a), (lower b). unfold lower. now rewrite !map_app.
Qed.

Lemma first_frames_length (threads : list ThreadInfo) :
  length (first_frames threads) = length (List.filter has_frames threads).
Proof.
  induction threads as [|t threads IH]; [reflexivity|].
  change (first_frames (t :: threads))
    with ((match stack_trace t with frame :: _ => [frame] | [] => [] end)
          ++ first_frames threads).
  cbn [List.filter]. unfold has_frames at 1. rewrite length_app, IH.
  now destruct (stack_trace t).
Qed.

End AggregatorMore.

(* ===================================================================== *)
(** ** More properties of the aggregator *)
(* ===================================================================== *)

(** X11: the statistics count every record once: [total_threads] is the
    number of records, and the daemon and non-daemon counts add up to it. *)
Theorem analyze_counts (threads : list JStack.ThreadInfo) :
  let s := JStack.analyze_threads threads in
  JStack.total_threads s = length threads
  /\ JStack.daemon_threads s + JStack.non_daemon_threads s
     = JStack.total_threads s.
Proof.
  cbv zeta. rewrite Aggregator.analyze_total. split; [reflexivity|].
  unfold JStack.analyze_threads.
  destruct (AggregatorMore.analyze_loop_groups threads (JStack.init_stats threads))
    as (-> & -> & _).
  cbn [JStack.init_stats JStack.daemon_threads JStack.non_daemon_threads].
  apply AggregatorMore.filter_split_length.
Qed.

(** X12: the state counter holds, for every state, the number of records
    with exactly that state; its counts add up to the number of records,
    and no state is listed twice. *)
Theorem states_counter_spec (threads : list JStack.ThreadInfo) :
  let c := JStack.states (JStack.analyze_threads threads) in
  (forall s, JStack.counter_get s c
             = length (List.filter (Notions.has_state s) threads))
  /\ Notions.counter_total c = length threads
  /\ NoDup (map fst c).
Proof.
  cbv zeta. unfold JStack.analyze_threads.
  destruct (Aggregator.analyze_loop threads (JStack.init_stats threads))
    as (_ & _ & _ & _ & _ & ->).
  cbn [JStack.init_stats JStack.states].
  destruct (AggregatorMore.counter_fill JStack.state threads [])
    as (Hget & Htot & Hnd).
  repeat split.
  - intros s. now rewrite Hget.
  - now rewrite Htot.
  - apply Hnd. constructor.
Qed.

(** X13: the thread groups partition the records by family: every family
    is listed once, and the group of a family holds the records of that
    family, in the order of the list; a family without record has no
    group. *)
Theorem thread_groups_partition (threads : list JStack.ThreadInfo) :
  let G := JStack.thread_groups (JStack.analyze_threads threads) in
  NoDup (map fst G)
  /\ forall g, PyDict.dict_get g G
               = match List.filter (Notions.in_family g) threads with
                 | [] => None
                 | ts => Some ts
                 end.
Proof.
  cbv zeta. unfold JStack.analyze_threads.
  destruct (AggregatorMore.analyze_loop_groups threads (JStack.init_stats threads))
    as (_ & _ & ->).
  cbn [JStack.init_stats JStack.thread_groups].
  destruct (AggregatorMore.group_fill threads []) as (Hget & Hnd).
  split; [apply Hnd; constructor|].
  intros g. rewrite Hget. now destruct (List.filter _ threads).
Qed.

(** X14: the counts of the stack-pattern counter add up to the number of
    records that have at least one stack frame, and no pattern is listed
    twice. *)
Theorem stack_patterns_total (threads : list JStack.ThreadInfo) :
  let c := JStack.stack_traces (JStack.analyze_threads threads) in
  Notions.counter_total c = length (List.filter Notions.has_frames threads)
  /\ Notions.counter_total c <= JStack.total_threads (JStack.analyze_threads threads)
  /\ NoDup (map fst c).
Proof.
  cbv zeta. rewrite Aggregator.stack_traces_first_frames, Aggregator.analyze_total.
  destruct (AggregatorMore.counter_fill (fun f : str => f)
              (Spec.first_frames threads) []) as (_ & Htot & Hnd).
  rewrite Htot, AggregatorMore.first_frames_length.
  cbn [Notions.counter_total fold_right plus].
  repeat split.
  - apply List.filter_length_le.
  - apply Hnd. constructor.
Qed.

(** X15: the blocked, waiting and runnable lists together hold at most as
    many records as there are threads. *)
Theorem state_lists_bounded (threads : list JStack.ThreadInfo) :
  let s := JStack.analyze_threads threads in
  length (JStack.blocked_threads s) + length (JStack.waiting_threads s)
  + length (JStack.runnable_threads s) <= JStack.total_threads s.
Proof.
  cbv zeta. rewrite Aggregator.analyze_total. unfold JStack.analyze_threads.
  destruct (Aggregator.analyze_loop threads (JStack.init_stats threads))
    as (-> & -> & -> & _).
  cbn [JStack.init_stats JStack.blocked_threads JStack.waiting_threads
       JStack.runnable_threads app].
  apply AggregatorMore.filter3_length. intros t.
  unfold Spec.is_waiting, Spec.is_runnable. split.
  - intros ->. split; reflexivity.
  - intros H. apply andb_true_iff in H as [-> ->]. reflexivity.
Qed.

(** X16: every record of the runnable list is given the CSS class
    [state-runnable]. *)
Theorem runnable_badged_runnable
        (threads : list JStack.ThreadInfo) (t : JStack.ThreadInfo) :
  In t (JStack.runnable_threads (JStack.analyze_threads threads)) ->
  JStack._get_state_class (JStack.state t) = py "state-runnable".
Proof.
  unfold JStack.analyze_threads.
  destruct (Aggregator.analyze_loop threads (JStack.init_stats threads))
    as (_ & _ & -> & _).
  cbn [JStack.init_stats JStack.runnable_threads app].
  intros H. apply filter_In in H as [_ H].
  unfold Spec.is_runnable in H. apply andb_true_iff in H as [_ H].
  apply AggregatorMore.contains_lower in H.
  unfold JStack._get_state_class.
  change (lower (py "RUNNABLE")) with (py "runnable") in H.
  now rewrite H.
Qed.

Lemma runnable_badged_runnable_witness :
  JStack._get_state_class (JStack.state Samples.upper_runnable)
  = py "state-runnable".
Proof.
  apply (runnable_badged_runnable
           [Samples.upper_runnable; Samples.lower_runnable]).
  vm_compute. left. reflexivity.
Defined.

(* ===================================================================== *)
(** ** Properties of the tables of the report *)
(* ===================================================================== *)

Module ReportFacts.
Import JStack Spec Notions Samples PyDict Report Styling.

(** The descending stable sort. *)
Lemma insert_desc_perm {A} (key : A -> nat) (x : A) (l : list A) :
  Permutation (insert_desc key x l) (x :: l).
Proof.
  induction l as [|y l IH]; [reflexivity|].
  cbn [insert_desc]. destruct (key y <=? key x); [reflexivity|].
  rewrite IH. apply perm_swap.
Qed.

Lemma sort_desc_perm {A} (key : A -> nat) (l : list A) :
  Permutation (sort_desc key l) l.
Proof.
  induction l as [|x l IH]; [reflexivity|].
  cbn [sort_desc fold_right]. fold (sort_desc key l).
  rewrite insert_desc_perm. now constructor.
Qed.

Lemma insert_desc_sorted {A} (key : A -> nat) (x : A) (l : list A) :
  StronglySorted (count_ge key) l ->
  StronglySorted (count_ge key) (insert_desc key x l).
Proof.
  induction 1 as [|y l Hs IH Hall]; [repeat constructor|].
  cbn [insert_desc]. destruct (key y <=? key x) eqn:E.
  - apply Nat.leb_le in E. constructor; [now constructor|].
    constructor; [exact E|].
    eapply Forall_impl; [exact Hall|]. unfold count_ge. intros z Hz. lia.
  - apply Nat.leb_gt in E. constructor; [exact IH|].
    apply List.Forall_forall. intros z Hz.
    apply Aggregator.insert_desc_In in Hz as [-> | Hz].
    + unfold count_ge. lia.
    + rewrite List.Forall_forall in Hall. now apply Hall.
Qed.

Lemma sort_desc_sorted {A} (key : A -> nat) (l : list A) :
  StronglySorted (count_ge key) (sort_desc key l).
Proof.
  induction l as [|x l IH]; [constructor|].
  cbn [sort_desc fold_right]. fold (sort_desc key l).
  now apply insert_desc_sorted.
Qed.

Lemma insert_desc_stable {A} (key : A -> nat) (n : nat) (x : A) (l : list A) :
  List.filter (fun y => key y =? n) (insert_desc key x l)
  = List.filter (fun y => key y =? n) (x :: l).
Proof.
  induction l as [|y l IH]; [reflexivity|].
  cbn [insert_desc]. destruct (key y <=? key x) eqn:E; [reflexivity|].
  apply Nat.leb_gt in E. cbn [List.filter] in *. rewrite IH.
  destruct (key x =? n) eqn:Ex; [|reflexivity].
  apply Nat.eqb_eq in Ex.
  assert ((key y =? n) = false) as -> by (apply Nat.eqb_neq; lia).
  reflexivity.
Qed.

Lemma sort_desc_stable {A} (key : A -> nat) (n : nat) (l : list A) :
  List.filter (fun y => key y =? n) (sort_desc key l)
  = List.filter (fun y => key y =? n) l.
Proof.
  induction l as [|x l IH]; [reflexivity|].
  cbn [sort_desc fold_right]. fold (sort_desc key l).
  rewrite insert_desc_stable. cbn [List.filter]. now rewrite IH.
Qed.

Lemma sorted_app_inv {A} (R : A -> A -> Prop) (a b : list A) :
  StronglySorted R (a ++ b) -> forall x y, In x a -> In y b -> R x y.
Proof.
  induction a as [|z a IH]; intros Hs x y Hx Hy; [contradiction|].
  cbn [app] in Hs. inversion Hs as [|? ? Hs' Hall]; subst.
  destruct Hx as [-> | Hx].
  - rewrite List.Forall_forall in Hall. apply Hall. apply in_or_app. now right.
  - now apply IH.
Qed.

(** [max] names the head of the descending stable sort. *)
Lemma head_insert_desc {A} (key : A -> nat) (x : A) (l : list A) :
  head (insert_desc key x l)
  = Some (match head l with
          | None => x
          | Some y => if key y <=? key x then x else y
          end).
Proof.
  destruct l as [|y l]; [reflexivity|].
  cbn [insert_desc head]. now destruct (key y <=? key x).
Qed.

Lemma max_loop_head {A} (key : A -> nat) (l : list A) : forall x,
  fold_left (fun m y => if key m <? key y then y else m) l x
  = match head (sort_desc key l) with
    | None => x
    | Some m => if key m <=? key x then x else m
    end.
Proof.
  induction l as [|y l IH]; intros x; [reflexivity|].
  cbn [fold_left sort_desc fold_right]. fold (sort_desc key l).
  rewrite IH, head_insert_desc.
  destruct (head (sort_desc key l)) as [m|].
  - destruct (Nat.ltb_spec (key x) (key y));
      destruct (Nat.leb_spec (key m) (key y));
      repeat match goal with
             | |- context [?a <=? ?b] => destruct (Nat.leb_spec a b)
             end; try reflexivity; lia.
  - destruct (Nat.ltb_spec (key x) (key y));
      destruct (Nat.leb_spec (key y) (key x)); try reflexivity; lia.
Qed.

Lemma py_max_by_head {A} (key : A -> nat) (l : list A) :
  py_max_by key l = head (sort_desc key l).
Proof.
  destruct l as [|x l]; [reflexivity|].
  cbn [py_max_by sort_desc fold_right]. fold (sort_desc key l).
  now rewrite max_loop_head, head_insert_desc.
Qed.

(** Dict lookups past a different key. *)
Lemma dict_get_ne {V} (k key : str) (v : V) (d : list (str * V)) :
  k <> key -> dict_get key ((k, v) :: d) = dict_get key d.
Proof. intros H. cbn [dict_get]. now rewrite bool_decide_eq_false_2. Qed.

End ReportFacts.

(** X17: the rows of a ranked table ([most_common] and the thread-group
    table) are the items of the table, each once, in non-increasing order
    of count; items of equal count keep the order they had. *)
Theorem ranked_rows_sorted {A} (key : A -> nat) (items : list A) :
  Permutation (JStack.sort_desc key items) items
  /\ StronglySorted (Notions.count_ge key) (JStack.sort_desc key items)
  /\ forall n, List.filter (fun x => key x =? n) (JStack.sort_desc key items)
               = List.filter (fun x => key x =? n) items.
Proof.
  split; [apply ReportFacts.sort_desc_perm|].
  split; [apply ReportFacts.sort_desc_sorted|].
  intros n. apply ReportFacts.sort_desc_stable.
Qed.

(** X18: the stack-pattern table shows at most ten patterns, and no pattern
    left out has a greater count than a pattern shown; shown and left out
    patterns together are the patterns of the counter. *)
Theorem top_ten_patterns (c : list (str * nat)) :
  length (JStack.most_common_n 10 c) <= 10
  /\ Permutation (JStack.most_common_n 10 c ++ skipn 10 (JStack.most_common c)) c
  /\ forall shown omitted,
       In shown (JStack.most_common_n 10 c) ->
       In omitted (skipn 10 (JStack.most_common c)) ->
       snd omitted <= snd shown.
Proof.
  unfold JStack.most_common_n. split; [apply firstn_le_length|].
  split.
  - rewrite firstn_skipn. apply ReportFacts.sort_desc_perm.
  - intros shown omitted Hs Ho.
    apply (ReportFacts.sorted_app_inv (Notions.count_ge snd)
             (firstn 10 (JStack.most_common c))
             (skipn 10 (JStack.most_common c))); try assumption.
    rewrite firstn_skipn. apply ReportFacts.sort_desc_sorted.
Qed.

(** X19: the largest thread group named in the summary is the group of the
    first row of the thread-group table; taking the maximum never fails,
    and without groups the summary says N/A. *)
Theorem largest_group_first_row (stats : JStack.Stats) :
  Report.largest_group stats
  = match Report.group_rows stats with
    | [] => Some (py "N/A")
    | (grp, _) :: _ => Some grp
    end.
Proof.
  unfold Report.largest_group, Report.group_rows.
  rewrite ReportFacts.py_max_by_head.
  destruct (JStack.thread_groups stats) as [|x l] eqn:E; [reflexivity|].
  destruct (JStack.sort_desc _ (x :: l)) as [|[grp ts] rows] eqn:Es;
    [|reflexivity].
  pose proof (ReportFacts.sort_desc_perm (fun x => length (snd x)) (x :: l)) as Hp.
  rewrite Es in Hp. now apply Permutation_nil in Hp.
Qed.

(** X20: a thread name is shown in at most 53 characters and a stack
    pattern in at most 103; a name of up to 50 characters and a pattern of
    up to 100 are shown unchanged, longer ones are cut there and followed
    by three dots. *)
Theorem display_bounds (text : str) :
  (length (Report.display_name text) <= 53
   /\ (length text <= 50 -> Report.display_name text = text)
   /\ (50 < length text ->
       Report.display_name text = firstn 50 text ++ py "..."))
  /\ (length (Report.pattern_display text) <= 103
      /\ (length text <= 100 -> Report.pattern_display text = text)
      /\ (100 < length text ->
          Report.pattern_display text = firstn 100 text ++ py "...")).
Proof.
  unfold Report.display_name, Report.pattern_display.
  split.
  - destruct (Nat.ltb_spec 50 (length text)) as [H|H].
    + repeat split; try lia.
      rewrite length_app, length_firstn. cbn [length py list_ascii_of_string].
      lia.
    + repeat split; try lia.
      * rewrite app_nil_r, length_firstn. lia.
      * intros _. rewrite app_nil_r. now apply firstn_all2.
  - destruct (Nat.ltb_spec 100 (length text)) as [H|H].
    + repeat split; try lia.
      rewrite length_app, length_firstn. cbn [length py list_ascii_of_string].
      lia.
    + repeat split; try lia.
Qed.

Lemma top_ten_patterns_witness :
  length (JStack.most_common_n 10
            [(py "at java.lang.Object.wait(Native Method)", 2);
             (py "at sun.misc.Unsafe.park(Native Method)", 5)]) <= 10.
Proof.
  exact (proj1 (top_ten_patterns
                  [(py "at java.lang.Object.wait(Native Method)", 2);
                   (py "at sun.misc.Unsafe.park(Native Method)", 5)])).
Defined.

Lemma display_bounds_witness :
  Report.display_name (py "pool-1-thread-1") = py "pool-1-thread-1".
Proof.
  apply (proj1 (proj2 (proj1 (display_bounds (py "pool-1-thread-1"))))).
  vm_compute. repeat constructor.
Defined.

(* ===================================================================== *)
(** ** Facts about the name order and the deduplicator *)
(* ===================================================================== *)

Module OrderFacts.
Import JStack Spec Notions Report.

Lemma str_ltb_asym (a : str) : forall b,
  str_ltb a b = true -> str_ltb b a = false.
Proof.
  induction a as [|x a IH]; intros [|y b]; cbn [str_ltb]; try congruence.
  destruct (Nat.ltb_spec (nat_of_ascii x) (nat_of_ascii y));
    destruct (Nat.ltb_spec (nat_of_ascii y) (nat_of_ascii x));
    try congruence; try lia.
  apply IH.
Qed.

Lemma str_le_trans (a : str) : forall b c,
  str_le a b -> str_le b c -> str_le a c.
Proof.
  unfold str_le.
  induction a as [|x a IH]; intros [|y b] [|z c]; cbn [str_ltb];
    try congruence.
  destruct (Nat.ltb_spec (nat_of_ascii y) (nat_of_ascii x));
    destruct (Nat.ltb_spec (nat_of_ascii x) (nat_of_ascii y));
    destruct (Nat.ltb_spec (nat_of_ascii z) (nat_of_ascii y));
    destruct (Nat.ltb_spec (nat_of_ascii y) (nat_of_ascii z));
    destruct (Nat.ltb_spec (nat_of_ascii z) (nat_of_ascii x));
    destruct (Nat.ltb_spec (nat_of_ascii x) (nat_of_ascii z));
    try congruence; try lia.
  apply IH.
Qed.

Lemma insert_asc_perm {A} (key : A -> str) (x : A) (l : list A) :
  Permutation (insert_asc key x l) (x :: l).
Proof.
  induction l as [|y l IH]; [reflexivity|].
  cbn [insert_asc]. destruct (str_ltb (key y) (key x)); [|reflexivity].
  rewrite IH. apply perm_swap.
Qed.

Lemma sort_asc_perm {A} (key : A -> str) (l : list A) :
  Permutation (sort_asc key l) l.
Proof.
  induction l as [|x l IH]; [reflexivity|].
  cbn [sort_asc fold_right]. fold (sort_asc key l).
  rewrite insert_asc_perm. now constructor.
Qed.

Lemma insert_asc_In {A} (key : A -> str) (x y : A) (l : list A) :
  In y (insert_asc key x l) -> y = x \/ In y l.
Proof.
  induction l as [|z l IH]; simpl.
  - intuition.
  - destruct (str_ltb (key z) (key x)); simpl; intuition.
Qed.

Lemma insert_asc_sorted {A} (key : A -> str) (x : A) (l : list A) :
  StronglySorted (fun a b => str_le (key a) (key b)) l ->
  StronglySorted (fun a b => str_le (key a) (key b)) (insert_asc key x l).
Proof.
  induction 1 as [|y l Hs IH Hall]; [repeat constructor|].
  cbn [insert_asc]. destruct (str_ltb (key y) (key x)) eqn:E.
  - constructor; [exact IH|].
    apply List.Forall_forall. intros z Hz.
    apply insert_asc_In in Hz as [-> | Hz].
    + now apply str_ltb_asym.
    + rewrite List.Forall_forall in Hall. now apply Hall.
  - constructor; [now constructor|].
    constructor; [exact E|].
    eapply Forall_impl; [exact Hall|]. intros z Hz.
    eapply str_le_trans; [exact E | exact Hz].
Qed.

Lemma sort_asc_sorted {A} (key : A -> str) (l : list A) :
  StronglySorted (fun a b => str_le (key a) (key b)) (sort_asc key l).
Proof.
  induction l as [|x l IH]; [constructor|].
  cbn [sort_asc fold_right]. fold (sort_asc key l).
  now apply insert_asc_sorted.
Qed.

End OrderFacts.

Module DedupFacts.
Import JStack Spec Notions Samples TextFacts.

Lemma keep_first_sublist (threads : list ThreadInfo) : forall seen,
  sublist (keep_first seen threads) threads.
Proof.
  induction threads as [|t threads IH]; intros seen; [constructor|].
  cbn [keep_first]. destruct (bool_decide _).
  - apply sublist_cons, IH.
  - apply sublist_skip, IH.
Qed.

(** The records of one base name among those kept: the first of the list
    with that base name, unless the base name was seen before. *)
Lemma keep_first_filter (k : str) (threads : list ThreadInfo) : forall seen,
  List.filter (has_base_name k) (keep_first seen threads)
  = if bool_decide (k ∈ seen) then []
    else option_list (List.find (has_base_name k) threads).
Proof.
  induction threads as [|t threads IH]; intros seen.
  - cbn. now destruct (bool_decide (k ∈ seen)).
  - cbn [keep_first List.find].
    destruct (has_base_name k t) eqn:Et; unfold has_base_name in Et;
      [apply bool_decide_eq_true in Et | apply bool_decide_eq_false in Et];
      destruct (bool_decide (base_name_of (name t) ∈ seen)) eqn:E;
      [apply bool_decide_eq_true in E | apply bool_decide_eq_false in E
       | apply bool_decide_eq_true in E | apply bool_decide_eq_false in E].
    + rewrite IH. subst k. now rewrite bool_decide_eq_true_2.
    + cbn [List.filter]. unfold has_base_name at 1.
      rewrite (bool_decide_eq_true_2 _ Et), IH. subst k.
      rewrite bool_decide_eq_true_2
        by (apply elem_of_union_l, elem_of_singleton; reflexivity).
      now rewrite bool_decide_eq_false_2.
    + apply IH.
    + cbn [List.filter]. unfold has_base_name at 1.
      rewrite (bool_decide_eq_false_2 _ Et), IH.
      destruct (bool_decide (k ∈ seen)) eqn:Ek.
      * apply bool_decide_eq_true in Ek.
        now rewrite bool_decide_eq_true_2 by (now apply elem_of_union_r).
      * apply bool_decide_eq_false in Ek.
        rewrite bool_decide_eq_false_2; [reflexivity|].
        rewrite elem_of_union, elem_of_singleton. intros [?|?]; congruence.
Qed.

(** The base names of the records kept are new and pairwise different. *)
Lemma keep_first_keys (threads : list ThreadInfo) : forall seen,
  NoDup (map (fun t => base_name_of (name t)) (keep_first seen threads))
  /\ forall t, In t (keep_first seen threads) -> base_name_of (name t) ∉ seen.
Proof.
  induction threads as [|t threads IH]; intros seen.
  - cbn. split; [constructor | tauto].
  - cbn [keep_first].
    destruct (bool_decide (base_name_of (name t) ∈ seen)) eqn:E; [apply IH|].
    apply bool_decide_eq_false in E.
    destruct (IH ({[base_name_of (name t)]} ∪ seen)) as [Hnd Hnew].
    split.
    + cbn [map]. constructor; [|exact Hnd].
      intros Hin. apply list_elem_of_In, in_map_iff in Hin as (t' & Hk & Hin).
      apply Hnew in Hin. apply Hin. rewrite Hk.
      apply elem_of_union_l, elem_of_singleton. reflexivity.
    + intros t' [<- | Hin]; [exact E|].
      apply Hnew in Hin. intros Hs. apply Hin. now apply elem_of_union_r.
Qed.

(** Removing matches only removes characters. *)
Lemma sub_del_sublist (r : regex) (s : str) : forall pos skip,
  sublist (sub_del_from r pos skip s) s.
Proof.
  induction s as [|c s IH]; intros pos skip; [constructor|].
  cbn [sub_del_from]. destruct skip as [|k].
  - destruct (head _) as [st'|].
    + destruct (m_pos st' - pos).
      * apply sublist_skip, IH.
      * apply sublist_cons, IH.
    + apply sublist_skip, IH.
  - apply sublist_cons, IH.
Qed.

Lemma strip_sublist (s : str) : sublist (strip s) s.
Proof.
  destruct (strip_infix s) as (a & b & Hs). rewrite Hs at 2.
  apply sublist_inserts_l, sublist_inserts_r. reflexivity.
Qed.

(** Without a digit in the subject neither pattern matches anywhere. *)
Lemma no_digit_no_match (pos : nat) (s : str) :
  Forall (fun c => is_digit c = false) s ->
  run hyphen_digits_pattern (MState pos s ∅) = []
  /\ run digits_pattern (MState pos s ∅) = [].
Proof.
  intros Hno.
  assert (Hdig : forall a b, s = a ++ b \/ (exists x, s = x ++ a ++ b) ->
                             a <> [] -> forallb is_digit a = true -> False).
  { intros a b Hs Ha Hp. destruct a as [|c a]; [congruence|].
    cbn [forallb] in Hp. apply andb_true_iff in Hp as [Hc _].
    rewrite List.Forall_forall in Hno.
    rewrite (Hno c) in Hc; [discriminate|].
    destruct Hs as [-> | [x ->]].
    - now left.
    - apply in_or_app. right. now left. }
  split.
  - destruct (run hyphen_digits_pattern _) as [|st' rest] eqn:E; [reflexivity|].
    exfalso. assert (H : In st' (run hyphen_digits_pattern (MState pos s ∅)))
      by (rewrite E; now left).
    unfold hyphen_digits_pattern in H. run_inv.
    apply (Hdig a b); try assumption. right. exists (py "-"). now subst.
  - destruct (run digits_pattern _) as [|st' rest] eqn:E; [reflexivity|].
    exfalso. assert (H : In st' (run digits_pattern (MState pos s ∅)))
      by (rewrite E; now left).
    unfold digits_pattern in H. run_inv.
    apply (Hdig a b); try assumption. now left.
Qed.

Lemma sub_del_no_digit (s : str) : forall pos,
  Forall (fun c => is_digit c = false) s ->
  sub_del_from hyphen_digits_pattern pos 0 s = s
  /\ sub_del_from digits_pattern pos 0 s = s.
Proof.
  induction s as [|c s IH]; intros pos Hno; [split; reflexivity|].
  destruct (no_digit_no_match pos (c :: s) Hno) as [H1 H2].
  inversion Hno as [|? ? _ Hrest]; subst.
  destruct (IH (S pos) Hrest) as [I1 I2].
  cbn [sub_del_from]. rewrite H1, H2. cbn [head]. now rewrite I1, I2.
Qed.

End DedupFacts.

(* ===================================================================== *)
(** ** Properties of the detailed table, the themes and the deduplicator *)
(* ===================================================================== *)

Module DumpFacts.
Import JStack Spec Notions Samples TextFacts.

(** The characters of the pieces of a split are characters of the text. *)
Lemma split_on_chars (sep : ascii) (s : str) :
  forall piece c, In piece (split_on sep s) -> In c piece -> In c s.
Proof.
  induction s as [|x s IH]; intros piece c.
  - simpl. intros [<- | []] [].
  - simpl. destruct (ch_eqb x sep).
    + intros [<- | Hp] Hc; [contradiction|]. right. eauto.
    + pose proof (split_on_not_nil sep s) as Hne.
      destruct (split_on sep s) as [|l ls]; [congruence|].
      intros [<- | Hp] Hc.
      * destruct Hc as [<- | Hc]; [now left|]. right.
        apply (IH l); [now left | assumption].
      * right. apply (IH piece); [now right | assumption].
Qed.

Lemma first_line_chars (block : str) (c : ascii) :
  In c (first_line block) -> In c block.
Proof.
  unfold first_line. pose proof (split_on_not_nil nl block) as Hne.
  intros Hc. apply (split_on_chars nl block (hd [] (split_on nl block)));
    [|assumption].
  destruct (split_on nl block); [congruence | now left].
Qed.

Lemma strip_chars (s : str) (c : ascii) : In c (strip s) -> In c s.
Proof.
  intros Hc. destruct (strip_infix s) as (a & b & ->).
  apply in_or_app. right. apply in_or_app. now left.
Qed.

(** A header that matches starts with a double quote. *)
Lemma header_starts_dquote (s : str) (m : gmap nat str) :
  re_match header_pattern s = Some m -> exists t, s = dquote :: t.
Proof.
  intros H. apply re_match_Some in H as (st' & H & ->).
  unfold header_pattern in H.
  apply run_Seq_in in H as (s1 & H1 & H).
  apply run_Bos_in in H1 as [_ ->].
  apply run_Seq_in in H as (s2 & H2 & _).
  apply run_Lit_in in H2 as (t & Ht & _). now exists t.
Qed.

Lemma unquoted_block_rejected (block : str) :
  ~ In dquote block -> _parse_thread_block block = None.
Proof.
  intros Hno.
  destruct (_parse_thread_block block) as [t|] eqn:E; [|reflexivity].
  apply Parser.parse_block_inv in E as (m & Hm & _).
  apply header_starts_dquote in Hm as [t' Ht]. exfalso. apply Hno.
  apply first_line_chars, strip_chars. rewrite Ht. now left.
Qed.

Lemma unquoted_no_block_start (content : str) :
  ~ In dquote content ->
  Forall (fun l => is_block_start l = false) (split_on nl content).
Proof.
  intros Hno. apply List.Forall_forall. intros line Hline.
  destruct (is_block_start line) eqn:E; [|reflexivity].
  apply Splitter.is_block_start_spec in E as (nm & t & -> & _).
  exfalso. apply Hno. apply (split_on_chars nl content _ dquote Hline).
  now left.
Qed.

End DumpFacts.

Module ThemeFacts.
Import PyDict Styling.

Lemma theme_known (theme : str) :
  In theme cli_themes ->
  is_Some (theme_description theme) /\ is_Some (base_css_colors theme).
Proof.
  intros [<- | [<- | [<- | []]]]; split; vm_compute; eauto.
Qed.

Lemma theme_unknown (theme : str) :
  ~ In theme cli_themes ->
  theme_description theme = None /\ base_css_colors theme = None.
Proof.
  intros Hno.
  assert (H1 : py "minimal" <> theme) by (intros <-; apply Hno; now left).
  assert (H2 : py "modern" <> theme)
    by (intros <-; apply Hno; right; now left).
  assert (H3 : py "classic" <> theme)
    by (intros <-; apply Hno; right; right; now left).
  assert (Hget : dict_get theme get_color_schemes = None).
  { unfold get_color_schemes.
    rewrite !ReportFacts.dict_get_ne by assumption. reflexivity. }
  split.
  - unfold theme_description, dict_has, get_theme_info. rewrite Hget.
    vm_compute. reflexivity.
  - unfold base_css_colors. now rewrite Hget.
Qed.

End ThemeFacts.

(** X21: the rows of the detailed thread table are the deduplicated
    records, each once, in non-decreasing order of name (code point order
    of the characters). *)
Theorem detail_rows_sorted (threads : list JStack.ThreadInfo) :
  Permutation (Report.detail_rows threads)
              (JStack._deduplicate_threads_by_name_pattern threads)
  /\ StronglySorted
       (fun a b => Notions.str_le (JStack.name a) (JStack.name b))
       (Report.detail_rows threads).
Proof.
  unfold Report.detail_rows. split.
  - apply OrderFacts.sort_asc_perm.
  - apply OrderFacts.sort_asc_sorted.
Qed.

(** X22: the theme lookups succeed exactly for the three themes of the
    tables, which are the themes the command line accepts.  For any other
    theme the description lookup falls back on the theme [industrial],
    which is in no table, and fails with [KeyError]; so does the colour
    lookup of the style sheet. *)
Theorem theme_lookup (theme : str) :
  (In theme Styling.cli_themes ->
   is_Some (Styling.theme_description theme)
   /\ is_Some (Styling.base_css_colors theme))
  /\ (~ In theme Styling.cli_themes ->
      Styling.theme_description theme = None
      /\ Styling.base_css_colors theme = None).
Proof.
  split; [apply ThemeFacts.theme_known | apply ThemeFacts.theme_unknown].
Qed.

Lemma theme_lookup_witness :
  Styling.theme_description (py "industrial") = None
  /\ Styling.base_css_colors (py "industrial") = None.
Proof.
  apply (proj2 (theme_lookup (py "industrial"))).
  intros [H | [H | [H | []]]]; discriminate.
Defined.

(** X23: for every base name, the deduplicated list holds exactly one
    record with that base name when the list has any, and it is the first
    such record of the list; base names absent from the list stay
    absent. *)
Theorem dedup_keeps_first (threads : list JStack.ThreadInfo) (k : str) :
  List.filter (Notions.has_base_name k)
              (JStack._deduplicate_threads_by_name_pattern threads)
  = option_list (List.find (Notions.has_base_name k) threads).
Proof.
  rewrite Aggregator.dedup_keep_first, DedupFacts.keep_first_filter.
  rewrite bool_decide_eq_false_2; [reflexivity|]. apply not_elem_of_empty.
Qed.

(** X24: deduplication only drops records: the result is a subsequence of
    the list, in the same order; and the base names of the records it
    keeps are pairwise different. *)
Theorem dedup_subsequence (threads : list JStack.ThreadInfo) :
  sublist (JStack._deduplicate_threads_by_name_pattern threads) threads
  /\ NoDup (map (fun t => JStack.base_name_of (JStack.name t))
                (JStack._deduplicate_threads_by_name_pattern threads)).
Proof.
  rewrite Aggregator.dedup_keep_first. split.
  - apply DedupFacts.keep_first_sublist.
  - apply DedupFacts.keep_first_keys.
Qed.

(** X25: a name without decimal digit has its trimmed self as base
    name. *)
Theorem base_name_without_digits (thread_name : str) :
  Forall (fun c => is_digit c = false) thread_name ->
  JStack.base_name_of thread_name = strip thread_name.
Proof.
  intros Hno. unfold JStack.base_name_of, re_sub_del.
  rewrite (proj1 (DedupFacts.sub_del_no_digit thread_name 0 Hno)).
  now rewrite (proj2 (DedupFacts.sub_del_no_digit thread_name 0 Hno)).
Qed.

Lemma base_name_without_digits_witness :
  JStack.base_name_of (py " main ") = py "main".
Proof.
  rewrite (base_name_without_digits (py " main ")).
  - vm_compute. reflexivity.
  - vm_compute. repeat constructor.
Defined.

(** X26: the base name is made of characters of the name, in their order:
    normalisation deletes characters and adds none. *)
Theorem base_name_subsequence (thread_name : str) :
  sublist (JStack.base_name_of thread_name) thread_name
  /\ length (JStack.base_name_of thread_name) <= length thread_name.
Proof.
  assert (H : sublist (JStack.base_name_of thread_name) thread_name).
  { unfold JStack.base_name_of, re_sub_del.
    etransitivity; [apply DedupFacts.strip_sublist|].
    etransitivity; apply DedupFacts.sub_del_sublist. }
  split; [exact H | now apply sublist_length].
Qed.

(** X27: a text without any double quote gives no record at all. *)
Theorem unquoted_dump_empty (content : str) :
  ~ In dquote content -> JStack.parse_jstack_output content = [].
Proof.
  intros Hno. unfold JStack.parse_jstack_output.
  pose proof (DumpFacts.unquoted_no_block_start content Hno) as Hlines.
  rewrite SplitterMore.split_one_block.
  - destruct (truthy (strip content)); [|reflexivity].
    unfold JStack.parse_blocks. cbn [fold_left]. unfold JStack.collect_step.
    rewrite DumpFacts.unquoted_block_rejected; [reflexivity|].
    intros Hq. apply Hno. now apply DumpFacts.strip_chars.
  - destruct (split_on nl content); [constructor|].
    inversion Hlines; assumption.
Qed.

Lemma unquoted_dump_empty_witness :
  JStack.parse_jstack_output Samples.banner_text = [].
Proof.
  apply (unquoted_dump_empty Samples.banner_text).
  vm_compute. intuition discriminate.
Defined.

(* ===================================================================== *)
(** ** The lines before the first marker line *)
(* ===================================================================== *)

Module Preamble.
Import JStack Spec Notions Samples TextFacts.

(** The block in progress before the first marker: non-empty as soon as
    one line is, empty while all lines are. *)
Lemma glue_exists (lines : list str) :
  Exists (fun l => l <> []) lines ->
  truthy (fold_left (fun cur line =>
                       if truthy cur then cur ++ nl :: line else line)
                    lines []) = true.
Proof.
  induction 1 as [line lines Hne | line lines _ IH].
  - cbn [fold_left truthy]. rewrite SplitterMore.glue_truthy
      by (now apply truthy_true).
    apply truthy_true. destruct line; [congruence | discriminate].
  - cbn [fold_left truthy]. destruct line as [|c line]; [exact IH|].
    now rewrite SplitterMore.glue_truthy.
Qed.

Lemma glue_all_empty (lines : list str) :
  Forall (fun l => l = []) lines ->
  fold_left (fun cur line => if truthy cur then cur ++ nl :: line else line)
            lines [] = [].
Proof.
  induction 1 as [|line lines -> _ IH]; [reflexivity | exact IH].
Qed.

(** The blocks of a text whose first marker line is [m], after the lines
    [pre]. *)
Lemma split_at_first_marker (content : str) (pre rest : list str) (m : str) :
  split_on nl content = pre ++ m :: rest ->
  Forall (fun l => is_block_start l = false) pre ->
  is_block_start m = true ->
  (Exists (fun l => l <> []) pre ->
   exists blocks,
     _split_thread_blocks content = strip (join_nl pre) :: blocks
     /\ Forall begins_with_marker blocks)
  /\ (Forall (fun l => l = []) pre ->
      Forall begins_with_marker (_split_thread_blocks content)).
Proof.
  intros Hsplit Hpre Hm.
  pose proof (split_on_pieces nl content) as Hlines.
  rewrite Hsplit in Hlines. apply Forall_app in Hlines as [_ Hlines].
  inversion Hlines as [|? ? Hmnl Hrest]; subst.
  assert (Hshape : marker_shape m) by (now apply Splitter.marker_shape_line).
  unfold _split_thread_blocks. rewrite Hsplit, fold_left_app.
  rewrite (SplitterMore.split_loop_no_start pre [] [] Hpre).
  cbn [fold_left].
  split.
  - intros Hex.
    assert (Hstep : forall cur, truthy cur = true ->
                                split_step ([], cur) m = ([strip cur], m)).
    { intros cur Hcur. unfold split_step. now rewrite Hm, Hcur. }
    rewrite (Hstep _ (glue_exists pre Hex)).
    destruct (fold_left split_step rest _) as [blocks cur] eqn:Hfold.
    apply (Splitter.split_loop_after_marker _ Hrest) in Hfold
      as (closed & -> & Hall & Hcur); [|assumption].
    destruct (Splitter.marker_shape_begins _ Hcur) as [Hb ->].
    rewrite SplitterMore.glue_strip. cbn [app].
    exists (closed ++ [strip cur]). split; [reflexivity|].
    apply Forall_app. split; [assumption|].
    constructor; [assumption | constructor].
  - intros Hall0. rewrite (glue_all_empty pre Hall0).
    assert (Hstep : split_step ([], []) m = ([], m)).
    { unfold split_step. now rewrite andb_false_r. }
    rewrite Hstep.
    destruct (fold_left split_step rest _) as [blocks cur] eqn:Hfold.
    apply (Splitter.split_loop_after_marker _ Hrest) in Hfold
      as (closed & -> & Hall & Hcur); [|assumption].
    destruct (Splitter.marker_shape_begins _ Hcur) as [Hb ->].
    cbn [app]. apply Forall_app. split; [assumption|].
    constructor; [assumption | constructor].
Qed.

End Preamble.

(** C1 (amended): every emitted block after the first begins with a
    header-marker line, and when the first line of the input is a marker
    line, or all lines before the first marker line are empty, every
    emitted block does.  The lines that precede the first marker line are
    not left out of the blocks: unless they are all empty, they are
    emitted, joined by newlines and trimmed, as the first block, followed
    by blocks that begin with a marker line; and a text without any marker
    line is emitted, trimmed, as one block, or as no block when it is
    blank. *)
Theorem split_blocks_begin_with_marker (content : str) :
  Forall Spec.begins_with_marker (tl (JStack._split_thread_blocks content))
  /\ (JStack.is_block_start (hd [] (split_on nl content)) = true ->
      Forall Spec.begins_with_marker (JStack._split_thread_blocks content))
  /\ (forall pre m rest,
        split_on nl content = pre ++ m :: rest ->
        Forall (fun l => JStack.is_block_start l = false) pre ->
        JStack.is_block_start m = true ->
        (Exists (fun l => l <> []) pre ->
         exists blocks,
           JStack._split_thread_blocks content
           = strip (Notions.join_nl pre) :: blocks
           /\ Forall Spec.begins_with_marker blocks)
        /\ (Forall (fun l => l = []) pre ->
            Forall Spec.begins_with_marker
                   (JStack._split_thread_blocks content)))
  /\ (Forall (fun l => JStack.is_block_start l = false) (split_on nl content) ->
      JStack._split_thread_blocks content
      = if truthy (strip content) then [strip content] else []).
Proof.
  split; [|split; [|split]].
  - unfold JStack._split_thread_blocks.
    pose proof (split_on_pieces nl content) as Hlines.
    destruct (fold_left _ _ _) as [blocks cur] eqn:Hfold.
    apply (Splitter.split_loop_from_start _ Hlines) in Hfold as [Htl Hcur].
    destruct (truthy (strip cur)); [|assumption].
    destruct blocks as [|b blocks]; [constructor|].
    simpl in *. apply Forall_app. split; [assumption|].
    constructor; [|constructor].
    apply Splitter.marker_shape_begins. now apply Hcur.
  - intros Hfirst.
    destruct (split_on nl content) as [|line lines] eqn:Hsplit;
      [discriminate|].
    simpl in Hfirst.
    apply (Preamble.split_at_first_marker content [] lines line);
      [exact Hsplit | constructor | exact Hfirst | constructor].
  - intros pre m rest. apply Preamble.split_at_first_marker.
  - intros Hno. apply SplitterMore.split_one_block.
    destruct (split_on nl content); [constructor|].
    now inversion Hno.
Qed.

(** The dump with a timestamp and a banner: these lines are the first
    block, the thread block after it begins with its header line. *)
Lemma split_blocks_begin_with_marker_witness :
  exists blocks,
    JStack._split_thread_blocks Samples.banner_dump
    = strip (Notions.join_nl MoreSamples.banner_lines) :: blocks
    /\ Forall Spec.begins_with_marker blocks.
Proof.
  refine (proj1 (proj1 (proj2 (proj2
            (split_blocks_begin_with_marker Samples.banner_dump)))
            MoreSamples.banner_lines Samples.thread_1_header
            MoreSamples.thread_1_body _ _ _) _).
  - vm_compute. reflexivity.
  - vm_compute. repeat constructor.
  - vm_compute. reflexivity.
  - apply Exists_cons_hd. discriminate.
Defined.
